(** * hw1.py: a polar line plot of r = 1 + sin(4 theta)

  The script computes one hundred angles with [np.linspace], the radii
  [1 + np.sin(4*theta)], and hands both arrays to matplotlib, which draws
  them on a polar axis, saves the figure as [hw1_plot.pdf] and shows it.

  The numbers of the script are IEEE 754 binary64 values (Python floats and
  NumPy float64 arrays).  They are modelled bit for bit with the executable
  specification of binary floating point of the Standard Library
  ([SpecFloat], precision 53, maximal exponent 1024): every operation of the
  script rounds here exactly as it rounds in the interpreter.  The real
  numbers only appear on the specification side (the constant pi, the sine
  function, tolerances), through the exact value [F2R] of a float. *)

From Stdlib Require Import ZArith QArith Qreals Reals Lra Lia List Bool String.
From Stdlib Require Import SpecFloat.
From Stdlib Require Import Machin.
Import ListNotations.


(** ** Binary64 arithmetic *)

Module Binary64.

Definition prec : Z := 53.
Definition emax : Z := 1024.

(** A Python float, a NumPy float64. *)
Definition float : Type := spec_float.

Definition add : float -> float -> float := SFadd prec emax.
Definition sub : float -> float -> float := SFsub prec emax.
Definition mul : float -> float -> float := SFmul prec emax.
Definition div : float -> float -> float := SFdiv prec emax.
Definition eqb : float -> float -> bool := SFeqb.
Definition ltb : float -> float -> bool := SFltb.
Definition leb : float -> float -> bool := SFleb.

(** Conversion of a Python [int] to a float ([float(n)]), rounding to
    nearest even. *)
Definition of_Z (n : Z) : float := binary_normalize prec emax n 0 false.

Definition valid (x : float) : bool := valid_binary prec emax x.

Definition is_finite (x : float) : bool :=
  match x with
  | S754_zero _ | S754_finite _ _ _ => true
  | S754_infinity _ | S754_nan => false
  end.

(** The exact value of a finite float, as a rational number
    (infinities and NaN are given the value 0; every statement below that
    speaks of a value also says that the float is finite). *)
Definition F2Q (x : float) : Q :=
  match x with
  | S754_finite s m e =>
      match e with
      | Zneg p => Qmake (cond_Zopp s (Zpos m)) (Pos.pow 2 p)
      | _ => inject_Z (cond_Zopp s (Zpos m) * 2 ^ e)
      end
  | _ => 0%Q
  end.

(** The exact value as a real number. *)
Definition F2R (x : float) : R := Q2R (F2Q x).

End Binary64.

(** ** The part of NumPy the script calls

  NumPy is not part of the repository.  [linspace] follows the algorithm of
  [numpy.linspace] for scalar bounds, with its defaults [endpoint=True],
  [retstep=False], [dtype=None]: the samples are [arange(0, num) * step +
  start] with [step = (stop - start) / (num - 1)], and the last sample is
  then overwritten with [stop]. *)

Module np.
Import Binary64.

(** [np.pi], the float nearest to pi: 0x1.921fb54442d18p+1. *)
Definition pi : float := S754_finite false 7074237752028440 (-51).

(** [arange(0, num, dtype=float64)] *)
Definition arange (num : nat) : list float :=
  map (fun i => of_Z (Z.of_nat i)) (seq 0 num).

(** [y[-1] = v] on a one-dimensional array; an empty array has no last
    element (NumPy raises; [linspace] never does this on an empty one). *)
Definition set_last (y : list float) (v : float) : list float :=
  match y with
  | [] => []
  | _ :: _ => removelast y ++ [v]
  end.

Definition linspace (start stop : float) (num : nat) : list float :=
  let div_ := (Z.of_nat num - 1)%Z in
  let delta := sub stop start in
  let y := arange num in
  let y :=
    if (0 <? div_)%Z then
      let step := div delta (of_Z div_) in
      if eqb step (of_Z 0) then
        (* denormal step: divide first, then scale *)
        map (fun v => mul (div v (of_Z div_)) delta) y
      else
        map (fun v => mul v step) y
    else
      map (fun v => mul v delta) y in
  let y := map (fun v => add v start) y in
  if (1 <? num)%nat then set_last y stop else y.

End np.

(** ** The curve data of the script *)

Module hw1.
Import Binary64.

(** [theta = np.linspace(0, 2*np.pi, 100)] *)
Definition theta : list float :=
  np.linspace (of_Z 0) (mul (of_Z 2) np.pi) 100.

Section Radius.
(** [np.sin] is the sine of the platform's mathematical library, applied
      to each element; it has no executable model here and is a parameter
      of the development. *)
Variable np_sin : float -> float.

(** One element of [1 + np.sin(4*theta)]. *)
Definition radius (t : float) : float :=
    add (of_Z 1) (np_sin (mul (of_Z 4) t)).

(** [r = 1 + np.sin(4*theta)] *)
Definition r : list float := map radius theta.
End Radius.

End hw1.

(** ** The calls into matplotlib

  Matplotlib, the file system and the display are the outside world of the
  script.  A call is recorded with its arguments; what the world does with
  it (its new state, and whether the call raises) is a parameter.  The
  script has no [try]: an exception raised by a call ends the run. *)

Module plt.
Import Binary64.

Inductive call : Type :=
  | subplots (projection : string)      (* plt.subplots(subplot_kw={'projection': ...}) *)
  | plot (x y : list float)             (* ax.plot(x, y) *)
  | set_title (label : string)          (* ax.set_title(label) *)
  | savefig (fname format : string)     (* plt.savefig(fname, format=...) *)
  | show.                               (* plt.show() *)

Section Exec.
(** The state of the outside world and the exceptions it can raise. *)
Variables world exn : Type.
(** One call: the world afterwards, and the exception raised if any. *)
Variable perform : call -> world -> world * option exn.

(** The interpreter state: the world and the calls made so far, oldest
    first. *)
Record state : Type := mkState { the_world : world; trace : list call }.

(** A statement sequence that either finishes with a value or stops at
    the first exception. *)
Definition M (A : Type) : Type := state -> state * (A + exn).

Definition ret {A} (a : A) : M A := fun s => (s, inl a).

Definition bind {A B} (m : M A) (k : A -> M B) : M B :=
    fun s =>
      match m s with
      | (s', inl a) => k a s'
      | (s', inr e) => (s', inr e)
      end.

Definition invoke (c : call) : M unit :=
    fun s =>
      let (w', res) := perform c (the_world s) in
      (mkState w' (trace s ++ [c]),
       match res with None => inl tt | Some e => inr e end).

(** How the interpreter process ends: status 0 when the last statement
    returns, status 1 with a traceback when an exception is not caught. *)
Definition exit_status {A} (res : A + exn) : Z :=
    match res with inl _ => 0%Z | inr _ => 1%Z end.

Definition start (w : world) : state := mkState w [].
End Exec.

Arguments bind {world exn A B} m k.
Arguments exit_status {exn A} res.
Arguments the_world {world} s.
Arguments trace {world} s.

Arguments ret {world exn A} a.
Arguments invoke {world exn} perform c.
Arguments start {world} w.

End plt.

Declare Scope script_scope.
Delimit Scope script_scope with script.
Notation "m1 ;; m2" := (plt.bind m1 (fun _ => m2))
  (at level 61, right associativity) : script_scope.

(** ** The script *)

Module script.
Import Binary64.

Section Main.
Variable np_sin : float -> float.
Variables world exn : Type.
Variable perform : plt.call -> world -> world * option exn.

Let call (c : plt.call) : plt.M world exn unit := plt.invoke perform c.

(** Lines 7 to 10: everything before the figure is saved. *)
Definition draw : plt.M world exn unit :=
    (call (plt.subplots "polar") ;;
     call (plt.plot hw1.theta (hw1.r np_sin)) ;;
     call (plt.set_title "Line Plot on Polar Axis"))%script.

(** Lines 7 to 13 of hw1.py. *)
Definition main : plt.M world exn unit :=
    (call (plt.subplots "polar") ;;
     call (plt.plot hw1.theta (hw1.r np_sin)) ;;
     call (plt.set_title "Line Plot on Polar Axis") ;;
     call (plt.savefig "hw1_plot.pdf" "pdf") ;;
     call plt.show)%script.

(** One run of the script from a state of the outside world. *)
Definition run (w : world) : plt.state world * (unit + exn) :=
    main (plt.start w).
End Main.

Arguments draw np_sin {world exn} perform.
Arguments main np_sin {world exn} perform.
Arguments run np_sin {world exn} perform w.

(** The five calls of the script, in the order of the source. *)
Definition calls (np_sin : float -> float) : list plt.call :=
  [plt.subplots "polar"; plt.plot hw1.theta (hw1.r np_sin);
   plt.set_title "Line Plot on Polar Axis";
   plt.savefig "hw1_plot.pdf" "pdf"; plt.show].

End script.

(** ** Rational approximations used by the proofs *)

Module Approx.

Fixpoint Qpow (x : Q) (n : nat) : Q :=
  match n with
  | O => 1%Q
  | S k => (x * Qpow x k)%Q
  end.

(** The terms of the arctangent series, over the rationals. *)
Definition ratan_seqQ (x : Q) (n : nat) : Q :=
  (Qpow x (2 * n + 1) / inject_Z (Z.of_nat (2 * n + 1)))%Q.

(** The terms of pi/4 = 2 atan(1/3) + atan(1/7). *)
Definition machin_termQ (n : nat) : Q :=
  ((if Nat.even n then 1 else -1)
   * (2 * ratan_seqQ (1#3) n + ratan_seqQ (1#7) n))%Q.

Fixpoint sumQ (f : nat -> Q) (n : nat) : Q :=
  match n with
  | O => f O
  | S k => (sumQ f k + f (S k))%Q
  end.

(** Eighteen decimals of pi, from below and from above. *)
Definition pi_lo : Q := 3141592653589793238 # 1000000000000000000.
Definition pi_hi : Q := 3141592653589793239 # 1000000000000000000.

(** [q] is within [tol] of [c * pi], decided on the enclosure of pi. *)
Definition near_pi_multiple (q c tol : Q) : bool :=
  Qle_bool (q - c * pi_lo) tol && Qle_bool (- tol) (q - c * pi_hi).

End Approx.

(** ** Decision procedures over the computed angles *)

Module Checks.
Import Binary64.

Definition zero : float := of_Z 0.

(** The i-th angle (0 outside the array). *)
Definition angle (i : nat) : float := nth i hw1.theta zero.

(** The tolerance of the statements on angles: 1e-15. *)
Definition tol : Q := 1 # 1000000000000000.

(** angle[i+1] - angle[i] is within [tol] of 2 pi / 99. *)
Definition spacing_ok (i : nat) : bool :=
  is_finite (angle i) && is_finite (angle (S i))
  && Approx.near_pi_multiple (F2Q (angle (S i)) - F2Q (angle i)) (2 # 99) tol.

(** angle[i] < angle[i+1], as floats and as exact values. *)
Definition increasing_at (i : nat) : bool :=
  ltb (angle i) (angle (S i))
  && is_finite (angle i) && is_finite (angle (S i))
  && negb (Qle_bool (F2Q (angle (S i))) (F2Q (angle i))).

(** The floats 1, 2 and -1. *)
Definition one : float := of_Z 1.
Definition two : float := of_Z 2.
Definition minus_one : float := of_Z (-1).

(** A well-formed float of the interval [-1, 1]. *)
Definition in_unit (s : float) : bool :=
  valid s && leb minus_one s && leb s one.

(** The target exponent of a binary64 result whose leading bit has weight
  2^(e-1). *)
Definition fx : Z -> Z := fexp prec emax.

(** The argument of the sine for the i-th angle, [4*theta[i]]. *)
Definition sin_arg (i : nat) : float := mul (of_Z 4) (angle i).

(** The i-th radius (0 outside the array). *)
Definition radius_at (np_sin : float -> float) (i : nat) : float :=
  nth i (hw1.r np_sin) zero.

(** [4*theta[i]] is computed without rounding. *)
Definition sin_arg_exact (i : nat) : bool :=
  is_finite (sin_arg i) && Qeq_bool (F2Q (sin_arg i)) (4 * F2Q (angle i)).

(** What the range statement asks of the library sine: on the arguments of
  the script it returns well-formed floats of [-1, 1]. *)
Definition sin_in_range (np_sin : float -> float) : bool :=
  forallb (fun t => in_unit (np_sin (mul (of_Z 4) t))) hw1.theta.

(** What the accuracy statements ask of the library sine at one argument:
  a well-formed float of [-1, 1] within 2^-53 of the sine of the exact value
  of the argument (half a unit in the last place of the results just
  below 1). *)
Definition sin_accurate_at (np_sin : float -> float) (x : float) : Prop :=
  in_unit (np_sin x) = true
  /\ (Rabs (F2R (np_sin x) - sin (F2R x)) <= / 2 ^ 53)%R.

(** The step of [linspace] for at least two samples (what [retstep=True]
    returns): [(stop - start) / (num - 1)]. *)
Definition linspace_step (start stop : float) (num : nat) : float :=
  div (sub stop start) (of_Z (Z.of_nat num - 1)).

End Checks.

(** ** Sample environments

  A sine and two outside worlds, for running the script in examples. *)

Module Sample.
Import Binary64.

(** Binary64 values of the sine at the arguments [4*theta[i]], i = 0, ...,
    99, as a correctly rounding library returns them. *)
Definition sin_values : list float :=
  [
  S754_zero false;
  S754_finite false 4524279925934234 (-54);
  S754_finite false 8758541758123289 (-54);
  S754_finite false 6215679157934080 (-53);
  S754_finite false 7653646259375735 (-53);
  S754_finite false 8600994757485565 (-53);
  S754_finite false 8996997153074307 (-53);
  S754_finite false 8816268664084415 (-53);
  S754_finite false 8070394456049489 (-53);
  S754_finite false 6807187002894497 (-53);
  S754_finite false 5107621183178278 (-53);
  S754_finite false 6161287160138744 (-54);
  S754_finite false 6849509779264476 (-56);
  S754_finite true 5692600224236781 (-55);
  S754_finite true 7222522439434717 (-54);
  S754_finite true 5567881159997683 (-53);
  S754_finite true 7167585456980631 (-53);
  S754_finite true 8307828910465939 (-53);
  S754_finite true 8915518953636591 (-53);
  S754_finite true 8951701076428340 (-53);
  S754_finite true 8414055910797762 (-53);
  S754_finite true 7337047908237719 (-53);
  S754_finite true 5789716078925343 (-53);
  S754_finite true 7742496823722119 (-54);
  S754_finite true 6818494668647552 (-55);
  S754_finite false 4570175054906913 (-56);
  S754_finite false 5621094839099360 (-54);
  S754_finite false 4869659568068621 (-53);
  S754_finite false 6616613890759047 (-53);
  S754_finite false 7939426078334002 (-53);
  S754_finite false 8753300433952480 (-53);
  S754_finite false 9006065497618927 (-53);
  S754_finite false 8681518372269059 (-53);
  S754_finite false 7800463371553959 (-53);
  S754_finite false 6419378409301943 (-53);
  S754_finite false 4626794618557277 (-53);
  S754_finite false 5075242552036803 (-54);
  S754_finite false 4572477103332175 (-57);
  S754_finite true 7937523466906068 (-55);
  S754_finite true 8254675170011384 (-54);
  S754_finite true 6005721244534735 (-53);
  S754_finite true 7499122574186131 (-53);
  S754_finite true 8511810670056388 (-53);
  S754_finite true 8978869595039334 (-53);
  S754_finite true 8870359658994712 (-53);
  S754_finite true 8193236630645779 (-53);
  S754_finite true 6990905854738572 (-53);
  S754_finite true 5340439856710982 (-53);
  S754_finite true 6695275587277803 (-54);
  S754_finite true 4560973813941233 (-55);
  S754_finite false 4560973813941261 (-55);
  S754_finite false 6695275587277816 (-54);
  S754_finite false 5340439856710988 (-53);
  S754_finite false 6990905854738567 (-53);
  S754_finite false 8193236630645782 (-53);
  S754_finite false 8870359658994711 (-53);
  S754_finite false 8978869595039333 (-53);
  S754_finite false 8511810670056391 (-53);
  S754_finite false 7499122574186127 (-53);
  S754_finite false 6005721244534742 (-53);
  S754_finite false 8254675170011371 (-54);
  S754_finite false 7937523466906102 (-55);
  S754_finite true 4572477103332290 (-57);
  S754_finite true 5075242552036786 (-54);
  S754_finite true 4626794618557283 (-53);
  S754_finite true 6419378409301937 (-53);
  S754_finite true 7800463371553970 (-53);
  S754_finite true 8681518372269061 (-53);
  S754_finite true 9006065497618927 (-53);
  S754_finite true 8753300433952482 (-53);
  S754_finite true 7939426078333995 (-53);
  S754_finite true 6616613890759042 (-53);
  S754_finite true 4869659568068622 (-53);
  S754_finite true 5621094839099377 (-54);
  S754_finite true 4570175054906791 (-56);
  S754_finite false 6818494668647580 (-55);
  S754_finite false 7742496823722103 (-54);
  S754_finite false 5789716078925330 (-53);
  S754_finite false 7337047908237723 (-53);
  S754_finite false 8414055910797762 (-53);
  S754_finite false 8951701076428339 (-53);
  S754_finite false 8915518953636589 (-53);
  S754_finite false 8307828910465936 (-53);
  S754_finite false 7167585456980632 (-53);
  S754_finite false 5567881159997690 (-53);
  S754_finite false 7222522439434690 (-54);
  S754_finite false 5692600224236752 (-55);
  S754_finite true 6849509779264469 (-56);
  S754_finite true 6161287160138720 (-54);
  S754_finite true 5107621183178287 (-53);
  S754_finite true 6807187002894500 (-53);
  S754_finite true 8070394456049487 (-53);
  S754_finite true 8816268664084412 (-53);
  S754_finite true 8996997153074307 (-53);
  S754_finite true 8600994757485565 (-53);
  S754_finite true 7653646259375738 (-53);
  S754_finite true 6215679157934068 (-53);
  S754_finite true 8758541758123274 (-54);
  S754_finite true 4524279925934234 (-54);
  S754_finite true 4967757600021511 (-102)
  ].

(** A sine that knows the arguments of the script (and answers 0 elsewhere). *)
Definition sin (x : float) : float :=
  match find (fun p => eqb (fst p) x)
           (combine (map (mul (of_Z 4)) hw1.theta) sin_values) with
  | Some p => snd p
  | None => of_Z 0
  end.

(** The exceptions of the sample worlds. *)
Inductive exn : Type := WriteError | RenderError.

(** The sample worlds keep the names of the files written so far. *)
Definition files : Type := list string.

(** A world in which every call succeeds; saving adds the file. *)
Definition writable (c : plt.call) (w : files) : files * option exn :=
  match c with
  | plt.savefig fname _ => (fname :: w, None)
  | _ => (w, None)
  end.

(** A world whose working directory cannot be written: saving raises. *)
Definition read_only (c : plt.call) (w : files) : files * option exn :=
  match c with
  | plt.savefig _ _ => (w, Some WriteError)
  | _ => (w, None)
  end.

(** A world that cannot draw: [ax.plot] raises. *)
Definition cannot_plot (c : plt.call) (w : files) : files * option exn :=
  match c with
  | plt.plot _ _ => (w, Some RenderError)
  | plt.savefig fname _ => (fname :: w, None)
  | _ => (w, None)
  end.

(** A world without a display: saving works, [plt.show] raises. *)
Definition headless (c : plt.call) (w : files) : files * option exn :=
  match c with
  | plt.show => (w, Some RenderError)
  | plt.savefig fname _ => (fname :: w, None)
  | _ => (w, None)
  end.

End Sample.

(** * Proofs *)

(** ** An enclosure of pi *)

Module ApproxFacts.
Import Approx.
Local Open Scope R_scope.

Lemma Q2R_inject_Z z : Q2R (inject_Z z) = IZR z.
Proof. unfold Q2R; simpl; lra. Qed.

Lemma Q2R_Qpow x n : Q2R (Qpow x n) = Q2R x ^ n.
Proof.
    induction n as [|n IH]; simpl.
    - unfold Q2R; simpl; lra.
    - now rewrite Q2R_mult, IH.
Qed.

Lemma Q2R_ratan_seq x n : Q2R (ratan_seqQ x n) = Ratan_seq (Q2R x) n.
Proof.
    unfold ratan_seqQ, Ratan_seq.
    rewrite Q2R_div.
    - now rewrite Q2R_Qpow, Q2R_inject_Z, <- INR_IZR_INZ.
    - intros H.
      assert (H' : Q2R (inject_Z (Z.of_nat (2 * n + 1))) = Q2R 0)
        by (apply Qeq_eqR; assumption).
      rewrite Q2R_inject_Z in H'.
      replace (Q2R 0) with 0 in H' by (unfold Q2R; simpl; lra).
      apply eq_IZR in H'. lia.
Qed.

Lemma pow_minus_one n : (-1) ^ n = if Nat.even n then 1 else -1.
Proof.
    induction n as [|n IH]; [reflexivity|].
    rewrite Nat.even_succ, <- Nat.negb_even. simpl pow. rewrite IH.
    destruct (Nat.even n); simpl; lra.
Qed.

Lemma Q2R_machin_term n : Q2R (machin_termQ n) = tg_alt PI_2_3_7_tg n.
Proof.
    unfold machin_termQ, tg_alt, PI_2_3_7_tg.
    rewrite Q2R_mult, Q2R_plus, Q2R_mult, !Q2R_ratan_seq, pow_minus_one.
    replace (Q2R (1#3)) with (/3) by (unfold Q2R; simpl; lra).
    replace (Q2R (1#7)) with (/7) by (unfold Q2R; simpl; lra).
    replace (Q2R 2) with 2 by (unfold Q2R; simpl; lra).
    destruct (Nat.even n); f_equal; unfold Q2R; simpl; lra.
Qed.

Lemma Q2R_sumQ n :
    Q2R (sumQ machin_termQ n) = sum_f_R0 (tg_alt PI_2_3_7_tg) n.
Proof.
    induction n as [|n IH]; simpl.
    - apply Q2R_machin_term.
    - now rewrite Q2R_plus, IH, Q2R_machin_term.
Qed.

(** Nineteen and twenty terms of the series enclose pi to 18 decimals. *)
Lemma PI_bounds : Q2R pi_lo < PI < Q2R pi_hi.
Proof.
    destruct (PI_2_3_7_ineq 9) as [Hlo Hhi].
    rewrite <- Q2R_sumQ in Hlo, Hhi.
    assert (L : (pi_lo < 4 * sumQ machin_termQ (S (2 * 9)))%Q)
      by (vm_compute; reflexivity).
    assert (U : (4 * sumQ machin_termQ (2 * 9) < pi_hi)%Q)
      by (vm_compute; reflexivity).
    apply Qlt_Rlt in L, U. rewrite Q2R_mult in L, U.
    replace (Q2R 4) with 4 in L, U by (unfold Q2R; simpl; lra).
    lra.
Qed.

Lemma near_pi_multiple_sound q c tol :
    (0 <= c)%Q ->
    near_pi_multiple q c tol = true ->
    Rabs (Q2R q - Q2R c * PI) <= Q2R tol.
Proof.
    intros Hc H. unfold near_pi_multiple in H.
    apply andb_prop in H. destruct H as [H1 H2].
    apply Qle_bool_imp_le, Qle_Rle in H1, H2.
    apply Qle_Rle in Hc.
    replace (Q2R 0) with 0 in Hc by (unfold Q2R; simpl; lra).
    rewrite Q2R_minus, Q2R_mult in H1, H2. rewrite Q2R_opp in H2.
    destruct PI_bounds as [Lo Hi].
    assert (Q2R c * Q2R pi_lo <= Q2R c * PI) by (apply Rmult_le_compat_l; lra).
    assert (Q2R c * PI <= Q2R c * Q2R pi_hi) by (apply Rmult_le_compat_l; lra).
    apply Rabs_le. lra.
Qed.

End ApproxFacts.

(** ** Lists *)

Module ListFacts.

Lemma forallb_seq (P : nat -> bool) (n : nat) :
    forallb P (seq 0 n) = true -> forall i, (i < n)%nat -> P i = true.
Proof.
    intros H i Hi. rewrite forallb_forall in H. apply H, in_seq. lia.
Qed.

End ListFacts.

(** ** The angles *)

Module ThetaFacts.
Import Binary64 Checks.
Local Open Scope R_scope.

Lemma theta_length : List.length hw1.theta = 100%nat.
Proof. vm_compute. reflexivity. Qed.

Lemma spacing_ok_all : forallb spacing_ok (seq 0 99) = true.
Proof. vm_compute. reflexivity. Qed.

Lemma increasing_all : forallb increasing_at (seq 0 99) = true.
Proof. vm_compute. reflexivity. Qed.

Lemma Q2R_tol : Q2R tol = 1 / 10 ^ 15.
Proof. unfold Q2R, tol; simpl. lra. Qed.

(** The second angle is 0x1.03f577c4b1a91p-4, which prints as
    0.06346651825433926. *)
Example angle_second : angle 1 = S754_finite false 4573244607371921 (-56).
Proof. vm_compute. reflexivity. Qed.

Lemma angle_first : angle 0 = S754_zero false.
Proof. vm_compute. reflexivity. Qed.

Lemma angle_last : angle 99 = mul (of_Z 2) np.pi.
Proof. vm_compute. reflexivity. Qed.

(** The last angle is 2 pi up to the rounding of [np.pi]. *)
Lemma angle_last_close : Rabs (F2R (angle 99) - 2 * PI) <= 1 / 10 ^ 15.
Proof.
  rewrite <- Q2R_tol. unfold F2R.
  replace 2 with (Q2R 2) by (unfold Q2R; simpl; lra).
  apply ApproxFacts.near_pi_multiple_sound; [discriminate|].
  vm_compute. reflexivity.
Qed.

End ThetaFacts.

(** ** Rounding of a sum with 1

    What the proofs need from binary64 addition: adding a float of [-1, 1] to
    1 gives a finite float of [0, 2] that is within one unit in the last
    place (at most 2^-52) of the exact sum. *)

Module RoundFacts.
Import Binary64 Checks.
Local Open Scope Z_scope.

Lemma digits2_size p : digits2_pos p = Pos.size p.
Proof. induction p; simpl; congruence. Qed.

Lemma digits2_bounds p :
  2 ^ (Zpos (digits2_pos p) - 1) <= Zpos p < 2 ^ Zpos (digits2_pos p).
Proof.
  rewrite digits2_size.
  pose proof (Pos.size_gt p) as Hgt. pose proof (Pos.size_le p) as Hle.
  split.
  - assert (H : (2 ^ Pos.size p <= p~0)%positive) by exact Hle.
    apply Pos2Z.pos_le_pos in H. rewrite Pos2Z.inj_pow in H.
    replace (Zpos (Pos.size p)) with (Z.succ (Zpos (Pos.size p) - 1)) in H by lia.
    rewrite Z.pow_succ_r in H by lia. lia.
  - apply Pos2Z.pos_lt_pos in Hgt. now rewrite Pos2Z.inj_pow in Hgt.
Qed.

Lemma digits2_unique p d :
  2 ^ (d - 1) <= Zpos p < 2 ^ d -> Zpos (digits2_pos p) = d.
Proof.
  intros [H1 H2]. pose proof (digits2_bounds p) as [B1 B2].
  set (k := Zpos (digits2_pos p)) in *.
  assert (0 < d). { destruct (Z_lt_le_dec 0 d); auto. rewrite Z.pow_neg_r in H1 by lia.
    destruct (Z.eq_dec d 0); [subst; simpl in H2; lia|]. rewrite Z.pow_neg_r in H2 by lia. lia. }
  destruct (Z.lt_trichotomy k d) as [L|[E|G]]; auto.
  - assert (2 ^ k <= 2 ^ (d - 1)) by (apply Z.pow_le_mono_r; lia). lia.
  - assert (2 ^ d <= 2 ^ (k - 1)) by (apply Z.pow_le_mono_r; lia). lia.
Qed.

Lemma shr_1_m mrs : 0 <= shr_m mrs -> shr_m (shr_1 mrs) = shr_m mrs / 2.
Proof.
  destruct mrs as [m r s]. cbn [shr_m]. intros H.
  destruct m as [|[p|p|]|p]; cbn [shr_1 shr_m]; try lia.
  - reflexivity.
  - apply Z.div_unique with 1; lia.
  - apply Z.div_unique with 0; lia.
  - reflexivity.
Qed.

Lemma iter_shr_1_m n : forall mrs, 0 <= shr_m mrs ->
  shr_m (iter_pos shr_1 n mrs) = shr_m mrs / 2 ^ Zpos n.
Proof.
  induction n as [n IH|n IH|]; intros mrs H.
  - simpl iter_pos.
    assert (H1 : 0 <= shr_m (shr_1 mrs)) by (rewrite shr_1_m by auto; apply Z.div_pos; lia).
    assert (H2 : 0 <= shr_m (iter_pos shr_1 n (shr_1 mrs)))
      by (rewrite IH by auto; apply Z.div_pos; lia).
    rewrite IH, IH, shr_1_m by auto.
    rewrite !Z.div_div by lia. f_equal.
    change 2 with (2 ^ 1) at 1. rewrite <- !Z.pow_add_r by lia. f_equal. lia.
  - simpl iter_pos.
    assert (H2 : 0 <= shr_m (iter_pos shr_1 n mrs))
      by (rewrite IH by auto; apply Z.div_pos; lia).
    rewrite IH, IH by auto.
    rewrite !Z.div_div by lia. f_equal.
    rewrite <- !Z.pow_add_r by lia. f_equal. lia.
  - simpl. rewrite shr_1_m by auto. reflexivity.
Qed.

Lemma round_nearest_even_range m l :
  m <= round_nearest_even m l <= m + 1.
Proof.
  destruct l as [|[| |]]; simpl; try lia. destruct (Z.even m); lia.
Qed.

Lemma fx_eq x : fx x = Z.max (x - 53) (-1074).
Proof. reflexivity. Qed.

Lemma shr_zero mrs e : shr mrs e 0 = (mrs, e).
Proof. reflexivity. Qed.

Lemma shr_pos mrs e n : shr mrs e (Zpos n) = (iter_pos shr_1 n mrs, e + Zpos n).
Proof. reflexivity. Qed.

(* second normalisation step after rounding *)
Lemma renormalize m e :
  2 ^ 52 <= m <= 2 ^ 53 -> -1074 <= e -> e <= 970 ->
  exists m' e',
    (let '(mrs, e'') := shr_fexp 53 1024 m e loc_Exact in
     match shr_m mrs with
     | Z0 => S754_zero false
     | Zpos q => if e'' <=? 1024 - 53 then S754_finite false q e'' else S754_infinity false
     | Zneg _ => S754_nan
     end) = S754_finite false m' e'
    /\ ((m < 2 ^ 53 /\ Zpos m' = m /\ e' = e) \/ (m = 2 ^ 53 /\ Zpos m' = 2 ^ 52 /\ e' = e + 1)).
Proof.
  intros Hm He He'.
  destruct m as [|q|q]; try lia.
  unfold shr_fexp. cbn [Zdigits2 shr_record_of_loc].
  change (fexp 53 1024) with fx. rewrite fx_eq.
  destruct (Z.eq_dec (Zpos q) (2 ^ 53)) as [E|NE].
  - assert (D : Zpos (digits2_pos q) = 54) by (apply digits2_unique; rewrite E; lia).
    rewrite D. replace (Z.max (54 + e - 53) (-1074) - e) with 1 by lia.
    injection E as ->.
    rewrite shr_pos. cbn [iter_pos shr_1 shr_m].
    replace (e + 1 <=? 1024 - 53) with true by (symmetry; apply Z.leb_le; lia).
    eexists _, _. split; [reflexivity|]. right. repeat split; reflexivity.
  - assert (D : Zpos (digits2_pos q) = 53) by (apply digits2_unique; lia).
    rewrite D. replace (Z.max (53 + e - 53) (-1074) - e) with 0 by lia.
    rewrite shr_zero. cbn [shr_m].
    replace (e <=? 1024 - 53) with true by (symmetry; apply Z.leb_le; lia).
    eexists _, _. split; [reflexivity|]. left. repeat split; lia.
Qed.

Lemma iter_xO p k : Zpos (Pos.iter xO p k) = Zpos p * 2 ^ Zpos k.
Proof.
  induction k as [|k IH] using Pos.peano_ind.
  - simpl. lia.
  - rewrite Pos.iter_succ, Pos2Z.inj_xO, IH, Pos2Z.inj_succ, Z.pow_succ_r by lia. lia.
Qed.

Lemma binary_round_aux_canonical mz f :
  fx (Zpos (digits2_pos mz) + f) = f -> f <= 971 ->
  binary_round_aux 53 1024 false (Zpos mz) f loc_Exact = S754_finite false mz f.
Proof.
  intros C B. unfold binary_round_aux, shr_fexp. cbn [Zdigits2 shr_record_of_loc].
  change (fexp 53 1024) with fx. rewrite C, Z.sub_diag, shr_zero.
  cbn [shr_m loc_of_shr_record round_nearest_even Zdigits2 shr_record_of_loc].
  rewrite C, Z.sub_diag, shr_zero. cbn [shr_m].
  replace (f <=? 1024 - 53) with true by (symmetry; apply Z.leb_le; lia).
  reflexivity.
Qed.

Lemma binary_round_cases p e :
  let d := Zpos (digits2_pos p) in
  -1074 <= e -> d + e <= 1023 ->
  exists m' e',
    binary_round 53 1024 false p e = S754_finite false m' e' /\
    ((d <= 53 /\ e' = fx (d + e) /\ e' <= e /\ Zpos m' = Zpos p * 2 ^ (e - e'))
     \/ (53 < d /\ e' = d + e - 53
         /\ Zpos p / 2 ^ (d - 53) <= Zpos m' <= Zpos p / 2 ^ (d - 53) + 1
         /\ Zpos m' < 2 ^ 53)
     \/ (53 < d /\ e' = d + e - 52 /\ Zpos m' = 2 ^ 52
         /\ Zpos p / 2 ^ (d - 53) = 2 ^ 53 - 1)).
Proof.
  intros d He Hd. pose proof (digits2_bounds p) as Hp. fold d in Hp.
  assert (Dpos : 0 < d) by (unfold d; lia).
  unfold binary_round. change (fexp 53 1024) with fx. fold d.
  destruct (Z_le_gt_dec d 53) as [Hs|Hl].
  - (* the sum fits: only an alignment *)
    assert (F : fx (d + e) <= e) by (rewrite fx_eq; lia).
    pose proof (fx_eq (d + e)) as FE.
    unfold shl_align.
    destruct (fx (d + e) - e) as [|k|k] eqn:K; try lia.
    + assert (E : fx (d + e) = e) by lia.
      rewrite binary_round_aux_canonical by (fold d; lia).
      exists p, e. split; [reflexivity|]. left.
      rewrite E, Z.sub_diag. repeat split; lia.
    + assert (E : e - fx (d + e) = Zpos k) by lia.
      assert (V : Zpos (Pos.iter xO p k) = Zpos p * 2 ^ Zpos k) by apply iter_xO.
      assert (D : Zpos (digits2_pos (Pos.iter xO p k)) = d + Zpos k).
      { apply digits2_unique. rewrite V.
        replace (d + Zpos k - 1) with (d - 1 + Zpos k) by lia.
        rewrite !Z.pow_add_r by lia.
        assert (0 < 2 ^ Zpos k) by (apply Z.pow_pos_nonneg; lia). nia. }
      rewrite binary_round_aux_canonical.
      * eexists _, _. split; [reflexivity|]. left.
        rewrite E. repeat split; lia.
      * rewrite D. replace (d + Zpos k + fx (d + e)) with (d + e) by lia. reflexivity.
      * rewrite fx_eq. lia.
  - (* the sum is too long: shift right and round *)
    assert (F : fx (d + e) = d + e - 53) by (rewrite fx_eq; lia).
    unfold shl_align. rewrite F.
    destruct (d + e - 53 - e) as [|k|k] eqn:K; try lia.
    unfold binary_round_aux.
    unfold shr_fexp at 1. cbn [Zdigits2 shr_record_of_loc].
    change (fexp 53 1024) with fx. fold d. rewrite F, K, shr_pos.
    set (mrs := iter_pos shr_1 k _).
    assert (M1 : shr_m mrs = Zpos p / 2 ^ (d - 53)).
    { unfold mrs. rewrite iter_shr_1_m by (simpl; lia). cbn [shr_m]. f_equal. f_equal. lia. }
    assert (B1 : 2 ^ 52 <= shr_m mrs < 2 ^ 53).
    { rewrite M1.
      assert (P : 0 < 2 ^ (d - 53)) by (apply Z.pow_pos_nonneg; lia).
      split.
      - apply Z.div_le_lower_bound; [lia|].
        rewrite <- Z.pow_add_r by lia. replace (d - 53 + 52) with (d - 1) by lia. lia.
      - apply Z.div_lt_upper_bound; [lia|].
        rewrite <- Z.pow_add_r by lia. replace (d - 53 + 53) with d by lia. lia. }
    pose proof (round_nearest_even_range (shr_m mrs) (loc_of_shr_record mrs)) as R.
    set (m2 := round_nearest_even (shr_m mrs) (loc_of_shr_record mrs)) in *.
    destruct (renormalize m2 (e + Zpos k)) as (m' & e' & EQ & C); try lia.
    rewrite EQ. exists m', e'. split; [reflexivity|]. right.
    destruct C as [(C1 & C2 & C3)|(C1 & C2 & C3)].
    + left. rewrite <- M1. repeat split; lia.
    + right. rewrite <- M1. repeat split; lia.
Qed.

Lemma bounded_inv m e :
  bounded 53 1024 m e = true ->
  -1074 <= e <= 971 /\ Zpos m < 2 ^ 53 /\ (e = -1074 \/ 2 ^ 52 <= Zpos m).
Proof.
  unfold bounded, canonical_mantissa. intros H.
  apply andb_prop in H. destruct H as [C B].
  apply Z.eqb_eq in C. apply Z.leb_le in B.
  change (fexp 53 1024) with fx in C. rewrite fx_eq in C.
  pose proof (digits2_bounds m) as [L U].
  set (d := Zpos (digits2_pos m)) in *.
  assert (d <= 53) by lia.
  split; [lia|]. split.
  - assert (2 ^ d <= 2 ^ 53) by (apply Z.pow_le_mono_r; lia). lia.
  - destruct (Z.eq_dec e (-1074)); [now left|right].
    assert (d = 53) by lia. replace (d - 1) with 52 in L by lia. exact L.
Qed.

Lemma one_eq : one = S754_finite false 4503599627370496 (-52).
Proof. reflexivity. Qed.

Lemma two_eq : two = S754_finite false 4503599627370496 (-51).
Proof. reflexivity. Qed.

Lemma minus_one_eq : minus_one = S754_finite true 4503599627370496 (-52).
Proof. reflexivity. Qed.

Lemma add_one_finite sgn m e :
  bounded 53 1024 m e = true -> e < -52 ->
  exists m' e',
    add one (S754_finite sgn m e) = S754_finite false m' e'
    /\ -1074 <= e' <= -51
    /\ Zpos m' < 2 ^ 53
    /\ (e' = -51 -> Zpos m' = 2 ^ 52)
    /\ Z.abs (Zpos m' * 2 ^ (e' + 1074)
              - (2 ^ 1074 + cond_Zopp sgn (Zpos m) * 2 ^ (e + 1074))) <= 2 ^ 1022.
Proof.
  intros B He. destruct (bounded_inv _ _ B) as (Be & Bm & _).
  rewrite one_eq. unfold add, SFadd, prec, emax.
  replace (Z.min (-52) e) with e by lia.
  unfold shl_align at 2. rewrite Z.sub_diag. cbn [fst].
  unfold shl_align.
  destruct (e - -52) as [|k|k] eqn:K; try lia. cbn [fst].
  assert (V : Zpos (Pos.iter xO 4503599627370496%positive k) = 2 ^ (- e)).
  { rewrite iter_xO. change (Zpos 4503599627370496) with (2 ^ 52).
    rewrite <- Z.pow_add_r by lia. f_equal. lia. }
  rewrite V. cbn [cond_Zopp].
  assert (P53 : 2 ^ 53 <= 2 ^ (- e)) by (apply Z.pow_le_mono_r; lia).
  set (S := 2 ^ (- e) + cond_Zopp sgn (Zpos m)).
  assert (HS : 2 ^ (- e) - Zpos m <= S <= 2 ^ (- e) + Zpos m)
    by (unfold S; destruct sgn; simpl; lia).
  destruct S as [|p|p] eqn:ES; try lia.
  unfold binary_normalize.
  assert (TW : 2 ^ (1 - e) = 2 * 2 ^ (- e)).
  { replace (1 - e) with (1 + - e) by lia. rewrite Z.pow_add_r by lia. reflexivity. }
  assert (D : Zpos (digits2_pos p) <= 1 - e).
  { pose proof (digits2_bounds p) as [L _].
    destruct (Z_le_gt_dec (Zpos (digits2_pos p)) (1 - e)); auto.
    assert (2 ^ (1 - e) <= 2 ^ (Zpos (digits2_pos p) - 1)) by (apply Z.pow_le_mono_r; lia).
    lia. }
  destruct (binary_round_cases p e) as (m' & e' & EQ & C); try lia.
  rewrite EQ. exists m', e'. split; [reflexivity|].
  assert (SC : 2 ^ 1074 + cond_Zopp sgn (Zpos m) * 2 ^ (e + 1074)
               = Zpos p * 2 ^ (e + 1074)).
  { rewrite <- ES. unfold S. rewrite Z.mul_add_distr_r.
    rewrite <- Z.pow_add_r by lia. do 2 f_equal. lia. }
  rewrite SC.
  set (d := Zpos (digits2_pos p)) in *.
  pose proof (fx_eq (d + e)) as FE.
  destruct C as [(C1 & C2 & C3 & C4)|[(C1 & C2 & C3 & C4)|(C1 & C2 & C3 & C4)]].
  - split; [lia|]. split; [|split; [lia|]].
    { rewrite C4. pose proof (digits2_bounds p) as [_ U]. fold d in U.
      assert (0 < 2 ^ (e - e')) by (apply Z.pow_pos_nonneg; lia).
      assert (2 ^ d * 2 ^ (e - e') <= 2 ^ 53).
      { rewrite <- Z.pow_add_r by lia. apply Z.pow_le_mono_r; lia. }
      nia. }
    rewrite C4. replace (Zpos p * 2 ^ (e - e') * 2 ^ (e' + 1074)) with (Zpos p * 2 ^ (e + 1074)).
    + rewrite Z.sub_diag. simpl. lia.
    + rewrite <- Z.mul_assoc, <- Z.pow_add_r by lia. do 2 f_equal. lia.
  - split; [lia|]. split; [lia|]. split; [lia|].
    set (n := d - 53) in *. set (q := Zpos p / 2 ^ n) in *.
    assert (Pn : 0 < 2 ^ n) by (apply Z.pow_pos_nonneg; lia).
    assert (Q1 : q * 2 ^ n <= Zpos p < (q + 1) * 2 ^ n).
    { unfold q. pose proof (Z.mul_div_le (Zpos p) (2 ^ n) Pn).
      pose proof (Z.mul_succ_div_gt (Zpos p) (2 ^ n) Pn). lia. }
    replace (e' + 1074) with (n + (e + 1074)) by lia.
    rewrite Z.pow_add_r by lia. rewrite Z.mul_assoc, <- Z.mul_sub_distr_r.
    assert (Pe : 0 < 2 ^ (e + 1074)) by (apply Z.pow_pos_nonneg; lia).
    rewrite Z.abs_mul, (Z.abs_eq (2 ^ (e + 1074))) by lia.
    apply Z.le_trans with (2 ^ n * 2 ^ (e + 1074)).
    + apply Z.mul_le_mono_nonneg_r; [lia|]. nia.
    + rewrite <- Z.pow_add_r by lia. apply Z.pow_le_mono_r; lia.
  - split; [lia|]. split; [lia|]. split; [lia|].
    set (n := d - 53) in *. set (q := Zpos p / 2 ^ n) in *.
    assert (Pn : 0 < 2 ^ n) by (apply Z.pow_pos_nonneg; lia).
    assert (Q1 : q * 2 ^ n <= Zpos p < (q + 1) * 2 ^ n).
    { unfold q. pose proof (Z.mul_div_le (Zpos p) (2 ^ n) Pn).
      pose proof (Z.mul_succ_div_gt (Zpos p) (2 ^ n) Pn). lia. }
    rewrite C3.
    replace (e' + 1074) with (1 + (n + (e + 1074))) by lia.
    rewrite !Z.pow_add_r by lia.
    replace (2 ^ 52 * (2 ^ 1 * (2 ^ n * 2 ^ (e + 1074))))
      with ((q + 1) * 2 ^ n * 2 ^ (e + 1074)) by (rewrite C4; lia).
    rewrite <- Z.mul_sub_distr_r.
    assert (Pe : 0 < 2 ^ (e + 1074)) by (apply Z.pow_pos_nonneg; lia).
    rewrite Z.abs_mul, (Z.abs_eq (2 ^ (e + 1074))) by lia.
    apply Z.le_trans with (2 ^ n * 2 ^ (e + 1074)).
    + apply Z.mul_le_mono_nonneg_r; [lia|]. nia.
    + rewrite <- Z.pow_add_r by lia. apply Z.pow_le_mono_r; lia.
Qed.


Lemma leb_finite_pos m1 e1 m2 e2 :
  leb (S754_finite false m1 e1) (S754_finite false m2 e2) = true ->
  e1 < e2 \/ (e1 = e2 /\ (m1 <= m2)%positive).
Proof.
  unfold leb, SFleb, SFcompare.
  destruct (Z.compare_spec e1 e2) as [E|E|E]; intros H.
  - right. split; [assumption|].
    fold (Pos.compare m1 m2) in H. unfold Pos.le.
    destruct (Pos.compare m1 m2); congruence.
  - now left.
  - discriminate H.
Qed.

Lemma leb_finite_neg m1 e1 m2 e2 :
  leb (S754_finite true m1 e1) (S754_finite true m2 e2) = true ->
  e2 < e1 \/ (e1 = e2 /\ (m2 <= m1)%positive).
Proof.
  unfold leb, SFleb, SFcompare.
  destruct (Z.compare_spec e1 e2) as [E|E|E]; intros H.
  - right. split; [assumption|].
    fold (Pos.compare m1 m2) in H. unfold Pos.le.
    rewrite Pos.compare_antisym.
    destruct (Pos.compare m1 m2); simpl in *; congruence.
  - discriminate H.
  - now left.
Qed.

Lemma in_unit_cases s :
  in_unit s = true ->
  (exists b, s = S754_zero b) \/ s = one \/ s = minus_one
  \/ exists sgn m e,
       s = S754_finite sgn m e /\ bounded 53 1024 m e = true /\ e < -52.
Proof.
  unfold in_unit. intros H.
  apply andb_prop in H. destruct H as [H H2].
  apply andb_prop in H. destruct H as [V H1].
  destruct s as [b|b| |sgn m e].
  - left. now exists b.
  - destruct b; [discriminate H1|discriminate H2].
  - discriminate H1.
  - rewrite one_eq in H2. rewrite minus_one_eq in H1.
    change (bounded 53 1024 m e = true) in V.
    destruct (bounded_inv _ _ V) as (Be & Bm & Bn).
    assert (Bn' : e = -1074 \/ (4503599627370496 <= m)%positive).
    { destruct Bn as [Bn|Bn]; [now left|right]. exact Bn. }
    assert (E : e < -52 \/ (e = -52 /\ (m <= 4503599627370496)%positive)).
    { destruct sgn.
      - apply leb_finite_neg in H1. destruct H1 as [H1|[H1 H1']]; [now left|].
        right. split; [now symmetry | assumption].
      - apply leb_finite_pos in H2. exact H2. }
    clear H1 H2 Bn Bm.
    destruct E as [E|[E1 E2]].
    + right. right. right. exists sgn, m, e. auto.
    + assert (m = 4503599627370496%positive).
      { destruct Bn' as [Bn|Bn]; [exfalso; clear - E1 Bn; lia|].
        apply Pos.le_antisym; assumption. }
      subst. destruct sgn; auto.
Qed.

Local Open Scope R_scope.

Lemma F2R_scaled sg mm ee :
  (-1074 <= ee < 0)%Z ->
  F2R (S754_finite sg mm ee) * IZR (2 ^ 1074)
  = IZR (cond_Zopp sg (Zpos mm) * 2 ^ (ee + 1074)).
Proof.
  intros H. destruct ee as [|q|q]; try lia.
  unfold F2R, F2Q, Q2R. cbn [Qnum Qden].
  assert (E : (2 ^ 1074 = Zpos (2 ^ q) * 2 ^ (Zneg q + 1074))%Z).
  { rewrite Pos2Z.inj_pow, <- Z.pow_add_r by lia. f_equal. lia. }
  rewrite E at 1. rewrite !mult_IZR.
  assert (IZR (Zpos (2 ^ q)) <> 0) by (apply not_0_IZR; lia).
  field. assumption.
Qed.

Lemma leb_finite_pos_intro m1 e1 m2 e2 :
  (e1 < e2 \/ (e1 = e2 /\ (m1 <= m2)%positive))%Z ->
  leb (S754_finite false m1 e1) (S754_finite false m2 e2) = true.
Proof.
  unfold leb, SFleb, SFcompare. intros [H|[H1 H2]].
  - apply Z.compare_lt_iff in H. now rewrite H.
  - subst e2. rewrite Z.compare_refl. fold (Pos.compare m1 m2).
    unfold Pos.le in H2. destruct (Pos.compare m1 m2); congruence.
Qed.

Lemma scaled_le_two m' e' :
  (-1074 <= e' <= -51)%Z -> (Zpos m' < 2 ^ 53)%Z ->
  (e' = -51 -> Zpos m' = 2 ^ 52)%Z ->
  (0 <= Zpos m' * 2 ^ (e' + 1074) <= 2 * 2 ^ 1074)%Z.
Proof.
  intros He Hm Hb.
  assert (P : (0 < 2 ^ (e' + 1074))%Z) by (apply Z.pow_pos_nonneg; lia).
  split; [apply Z.mul_nonneg_nonneg; lia|].
  destruct (Z.eq_dec e' (-51)) as [E|E].
  - rewrite (Hb E), E. apply Z.eq_le_incl.
    change 2%Z with (2 ^ 1)%Z at 3. rewrite <- !Z.pow_add_r by lia. reflexivity.
  - assert (Q : (2 ^ (e' + 1074) <= 2 ^ 1022)%Z) by (apply Z.pow_le_mono_r; lia).
    apply Z.le_trans with (2 ^ 53 * 2 ^ 1022)%Z.
    + apply Z.mul_le_mono_nonneg; lia.
    + apply Z.eq_le_incl. change 2%Z with (2 ^ 1)%Z at 3.
      rewrite <- !Z.pow_add_r by lia. reflexivity.
Qed.

Lemma F2R_zero b : F2R (S754_zero b) = 0.
Proof. unfold F2R, F2Q, Q2R; simpl; lra. Qed.

Lemma F2R_one : F2R one = 1.
Proof.
  rewrite one_eq. unfold F2R, F2Q, Q2R. cbn [Qnum Qden cond_Zopp].
  replace (Zpos (2 ^ 52)) with 4503599627370496%Z by reflexivity. field.
Qed.

Lemma F2R_two : F2R two = 2.
Proof.
  rewrite two_eq. unfold F2R, F2Q, Q2R. cbn [Qnum Qden cond_Zopp].
  replace (Zpos (2 ^ 51)) with 2251799813685248%Z by reflexivity. field.
Qed.

Lemma F2R_minus_one : F2R minus_one = -1.
Proof.
  rewrite minus_one_eq. unfold F2R, F2Q, Q2R. cbn [Qnum Qden cond_Zopp].
  replace (Zpos (2 ^ 52)) with 4503599627370496%Z by reflexivity.
  change (- Zpos 4503599627370496)%Z with (Zneg 4503599627370496). field.
Qed.

Lemma pow2_52 : 2 ^ 52 = IZR (2 ^ 52).
Proof. rewrite pow_IZR. reflexivity. Qed.

Lemma add_one_spec s :
  in_unit s = true ->
  let z := add one s in
  is_finite z = true /\ leb zero z = true /\ leb z two = true
  /\ 0 <= F2R z <= 2
  /\ Rabs (F2R z - (1 + F2R s)) <= / 2 ^ 52.
Proof.
  intros H z.
  assert (P52 : 0 < / 2 ^ 52) by (apply Rinv_0_lt_compat, pow_lt; lra).
  destruct (in_unit_cases s H) as [[b E]|[E|[E|(sgn & m & e & E & B & He)]]].
  - assert (Z : z = one) by (unfold z; rewrite E, one_eq; reflexivity).
    rewrite Z, E, F2R_one, F2R_zero. repeat split; try reflexivity; try lra.
    replace (1 - (1 + 0)) with 0 by lra. rewrite Rabs_R0. lra.
  - assert (Z : z = two) by (unfold z; rewrite E; vm_compute; reflexivity).
    rewrite Z, E, F2R_one, F2R_two. repeat split; try reflexivity; try lra.
    replace (2 - (1 + 1)) with 0 by lra. rewrite Rabs_R0. lra.
  - assert (Z : z = S754_zero false) by (unfold z; rewrite E; vm_compute; reflexivity).
    rewrite Z, E, F2R_minus_one, F2R_zero. repeat split; try reflexivity; try lra.
    replace (0 - (1 + -1)) with 0 by lra. rewrite Rabs_R0. lra.
  - destruct (add_one_finite sgn m e B He) as (m' & e' & EQ & Be' & Bm' & Bt & Err).
    assert (Z : z = S754_finite false m' e') by (unfold z; rewrite E; exact EQ).
    destruct (bounded_inv _ _ B) as (Be & _ & _).
    pose proof (F2R_scaled false m' e' ltac:(lia)) as Hz. cbn [cond_Zopp] in Hz.
    pose proof (F2R_scaled sgn m e ltac:(lia)) as Hs.
    pose proof (scaled_le_two m' e' Be' Bm' Bt) as [L U].
    rewrite Z, E. clear Z E z H.
    set (x := F2R (S754_finite false m' e')) in *.
    set (y := F2R (S754_finite sgn m e)) in *.
    set (A := (Zpos m' * 2 ^ (e' + 1074))%Z) in *.
    set (Bz := (cond_Zopp sgn (Zpos m) * 2 ^ (e + 1074))%Z) in *.
    assert (TW : (2 ^ 1074 = 2 ^ 1022 * 2 ^ 52)%Z) by (rewrite <- Z.pow_add_r by lia; reflexivity).
    set (T := (2 ^ 1074)%Z) in *. set (W := (2 ^ 1022)%Z) in *.
    assert (Wpos : 0 < IZR W) by (apply IZR_lt; unfold W; apply Z.pow_pos_nonneg; lia).
    assert (TR : IZR T = IZR W * 2 ^ 52) by (rewrite TW, mult_IZR, pow2_52; reflexivity).
    assert (Tpos : 0 < IZR T)
      by (rewrite TR; apply Rmult_lt_0_compat; [assumption|apply pow_lt; lra]).
    apply IZR_le in L, U, Err. rewrite mult_IZR in U.
    rewrite abs_IZR, minus_IZR, plus_IZR in Err.
    rewrite <- Hz in L, U, Err. rewrite <- Hs in Err.
    split; [reflexivity|]. split; [reflexivity|]. split.
    { rewrite two_eq. apply leb_finite_pos_intro.
      destruct (Z.eq_dec e' (-51)) as [E51|E51]; [right|left; lia].
      split; [assumption|]. specialize (Bt E51).
      change (2 ^ 52)%Z with (Zpos 4503599627370496) in Bt.
      injection Bt as ->. apply Pos.le_refl. }
    split.
    { split.
      - apply Rmult_le_reg_r with (IZR T); [assumption|]. lra.
      - apply Rmult_le_reg_r with (IZR T); [assumption|]. lra. }
    replace (x * IZR T - (IZR T + y * IZR T)) with ((x - (1 + y)) * IZR T) in Err by ring.
    rewrite Rabs_mult, (Rabs_pos_eq (IZR T)) in Err by lra.
    apply Rmult_le_reg_r with (IZR T); [assumption|].
    apply Rle_trans with (1 := Err).
    rewrite TR. apply Req_le. field.
Qed.

End RoundFacts.

(** ** The radii

    Bounds on the sine near 0 and near 8 pi, the radius as one rounded
    addition, and the sample sine at the two ends of the curve. *)

Module RadiusFacts.
Import Binary64 Checks.
Local Open Scope R_scope.

Lemma PI_gt_3 : 3 < PI.
Proof.
  destruct ApproxFacts.PI_bounds as [L _].
  apply Rlt_trans with (2 := L). unfold Approx.pi_lo, Q2R. simpl. lra.
Qed.

Lemma sin_abs_le x : Rabs (sin x) <= Rabs x.
Proof.
  pose proof PI_gt_3 as P. pose proof (SIN_bound x) as [B1 B2].
  destruct (Rle_lt_dec 1 (Rabs x)) as [G|S].
  - apply Rle_trans with 1; [apply Rabs_le; lra | assumption].
  - apply Rabs_def2 in S. destruct S as [S1 S2].
    destruct (Rtotal_order x 0) as [N|[Z|Pp]].
    + pose proof (sin_gt_x x N).
      assert (0 < sin (- x)) by (apply sin_gt_0; lra).
      rewrite sin_neg in *.
      rewrite (Rabs_left (sin x)), (Rabs_left x) by lra. lra.
    + subst x. rewrite sin_0, Rabs_R0. lra.
    + pose proof (sin_lt_x x Pp).
      assert (0 < sin x) by (apply sin_gt_0; lra).
      rewrite (Rabs_pos_eq (sin x)), (Rabs_pos_eq x) by lra. lra.
Qed.

Lemma sin_lb_eq a :
  sin_lb a = a - a ^ 3 / 6 + a ^ 5 / 120 - a ^ 7 / 5040.
Proof.
  unfold sin_lb, sin_approx. cbn [sum_f_R0]. unfold sin_term.
  rewrite !INR_IZR_INZ.
  change (Z.of_nat (fact (2 * 0 + 1))) with 1%Z.
  change (Z.of_nat (fact (2 * 1 + 1))) with 6%Z.
  change (Z.of_nat (fact (2 * 2 + 1))) with 120%Z.
  change (Z.of_nat (fact (2 * 3 + 1))) with 5040%Z.
  cbn [Nat.mul Nat.add pow]. field.
Qed.

Lemma sin_lower a : 0 <= a <= 1 / 10 -> 99 / 100 * a <= sin a.
Proof.
  intros [A0 A1]. pose proof PI_gt_3 as P.
  destruct (SIN a) as [L _]; try lra.
  apply Rle_trans with (2 := L). rewrite sin_lb_eq.
  cbn [pow].
  assert (A2 : 0 <= a * a <= 1 / 100) by nra.
  set (b := a * a) in *.
  replace (a * (a * (a * 1))) with (a * b) by (unfold b; ring).
  replace (a * (a * (a * (a * (a * b))))) with (a * b * b * b) by (unfold b; ring).
  replace (a * (a * (a * b))) with (a * b * b) by (unfold b; ring).
  assert (0 <= a * b) by nra.
  assert (a * b <= a / 100) by nra.
  assert (0 <= a * b * b) by nra.
  assert (a * b * b * b <= a * b * b) by nra.
  clearbody b.
  set (x1 := a * b) in *. set (x2 := x1 * b) in *. set (x3 := x2 * b) in *.
  lra.
Qed.

Lemma PI_enclosure :
  3141592653589793238 / 1000000000000000000 < PI
  < 3141592653589793239 / 1000000000000000000.
Proof.
  destruct ApproxFacts.PI_bounds as [L U].
  unfold Approx.pi_lo, Approx.pi_hi, Q2R in L, U. cbn [Qnum Qden] in L, U.
  lra.
Qed.

Lemma half_ulps : / 2 ^ 52 + / 2 ^ 53 <= 1 / 10 ^ 15.
Proof. lra. Qed.

Section Radius.
Variable np_sin : float -> float.

Lemma radius_at_eq i :
  (i < 100)%nat -> radius_at np_sin i = add one (np_sin (sin_arg i)).
Proof.
  intros Hi. unfold radius_at, hw1.r.
  rewrite (nth_indep _ zero (hw1.radius np_sin zero))
    by (rewrite length_map, ThetaFacts.theta_length; exact Hi).
  rewrite map_nth. reflexivity.
Qed.

Lemma sin_in_range_at i :
  sin_in_range np_sin = true -> (i < 100)%nat ->
  in_unit (np_sin (sin_arg i)) = true.
Proof.
  intros H Hi. unfold sin_in_range in H. rewrite forallb_forall in H.
  apply H. unfold angle. apply nth_In. rewrite ThetaFacts.theta_length. exact Hi.
Qed.

Lemma sin_arg_exact_all : forallb sin_arg_exact (seq 0 100) = true.
Proof. vm_compute. reflexivity. Qed.

Lemma F2R_sin_arg i : (i < 100)%nat -> F2R (sin_arg i) = 4 * F2R (angle i).
Proof.
  intros Hi.
  pose proof (ListFacts.forallb_seq _ _ sin_arg_exact_all i Hi) as H.
  unfold sin_arg_exact in H. apply andb_prop in H. destruct H as [_ H].
  apply Qeq_bool_eq, Qeq_eqR in H. unfold F2R. rewrite H, Q2R_mult.
  f_equal. unfold Q2R. simpl. lra.
Qed.

Lemma radius_accuracy i :
  (i < 100)%nat -> sin_accurate_at np_sin (sin_arg i) ->
  is_finite (radius_at np_sin i) = true
  /\ Rabs (F2R (radius_at np_sin i) - (1 + sin (4 * F2R (angle i))))
     <= / 2 ^ 52 + / 2 ^ 53.
Proof.
  intros Hi [U A]. rewrite radius_at_eq by exact Hi.
  destruct (RoundFacts.add_one_spec _ U) as (F & _ & _ & _ & E).
  split; [exact F|].
  rewrite <- F2R_sin_arg by exact Hi.
  set (z := F2R (add one (np_sin (sin_arg i)))) in *.
  set (s := F2R (np_sin (sin_arg i))) in *.
  replace (z - (1 + sin (F2R (sin_arg i))))
    with ((z - (1 + s)) + (s - sin (F2R (sin_arg i)))) by ring.
  apply Rle_trans with (1 := Rabs_triang _ _). lra.
Qed.

End Radius.

Lemma sin_arg_first : sin_arg 0 = S754_zero false.
Proof. vm_compute. reflexivity. Qed.

Lemma F2R_sin_arg_last : F2R (sin_arg 99) = 7074237752028440 / 281474976710656.
Proof.
  unfold F2R.
  replace (F2Q (sin_arg 99)) with (7074237752028440 # 281474976710656)%Q
    by (vm_compute; reflexivity).
  unfold Q2R. cbn [Qnum Qden]. reflexivity.
Qed.

(** The last argument of the sine is just below 8 pi. *)
Lemma sin_arg_last_gap :
  976 / 10 ^ 18 < 8 * PI - F2R (sin_arg 99) < 985 / 10 ^ 18.
Proof.
  rewrite F2R_sin_arg_last. pose proof PI_enclosure as [L U]. lra.
Qed.

Lemma sin_at_last :
  - (985 / 10 ^ 18) <= sin (F2R (sin_arg 99)) <= - (966 / 10 ^ 18).
Proof.
  pose proof sin_arg_last_gap as [L U].
  set (d := 8 * PI - F2R (sin_arg 99)) in *.
  assert (E : sin (F2R (sin_arg 99)) = - sin d).
  { rewrite <- sin_neg. rewrite <- (sin_period (- d) 4).
    f_equal. unfold d. simpl. lra. }
  rewrite E.
  assert (D0 : 0 < d) by lra.
  pose proof (sin_lt_x d D0). pose proof (sin_lower d). lra.
Qed.

Lemma sample_accurate_first : sin_accurate_at Sample.sin (sin_arg 0).
Proof.
  split; [vm_compute; reflexivity|].
  replace (Sample.sin (sin_arg 0)) with (S754_zero false) by (vm_compute; reflexivity).
  rewrite sin_arg_first, RoundFacts.F2R_zero, sin_0.
  rewrite Rminus_diag, Rabs_R0. lra.
Qed.

Lemma sample_accurate_last : sin_accurate_at Sample.sin (sin_arg 99).
Proof.
  split; [vm_compute; reflexivity|].
  replace (Sample.sin (sin_arg 99))
    with (S754_finite true 4967757600021511 (-102)) by (vm_compute; reflexivity).
  pose proof sin_at_last as [L U].
  unfold F2R at 1. unfold F2Q, Q2R. cbn [Qnum Qden cond_Zopp].
  replace (Zpos (2 ^ 102)) with 5070602400912917605986812821504%Z by reflexivity.
  change (- Zpos 4967757600021511)%Z with (Zneg 4967757600021511).
  apply Rabs_le. lra.
Qed.

Lemma Rabs_le_elim a b : Rabs a <= b -> - b <= a <= b.
Proof. unfold Rabs. destruct (Rcase_abs a); lra. Qed.

Lemma cos_near_one u : 1 - u * u / 2 <= cos u <= 1.
Proof.
  split; [|apply COS_bound].
  replace (cos u) with (cos (2 * (u / 2))) by (f_equal; field).
  rewrite cos_2a_sin.
  pose proof (sin_abs_le (u / 2)) as H.
  apply Rsqr_le_abs_1 in H. unfold Rsqr in H. lra.
Qed.

(** Sine and cosine of an angle close to 2 pi. *)
Lemma direction_near_2PI t d :
  Rabs (t - 2 * PI) <= d -> d <= 1 ->
  Rabs (cos t - 1) <= d /\ Rabs (sin t) <= d.
Proof.
  intros H D. set (u := t - 2 * PI) in *.
  assert (C : cos t = cos u).
  { rewrite <- (cos_period u 1). f_equal. unfold u. simpl. lra. }
  assert (S : sin t = sin u).
  { rewrite <- (sin_period u 1). f_equal. unfold u. simpl. lra. }
  rewrite C, S. split.
  - pose proof (cos_near_one u) as [L U].
    assert (D0 : 0 <= d) by (apply Rle_trans with (2 := H), Rabs_pos).
    assert (Q : u * u <= d * d).
    { apply (Rsqr_le_abs_1 u d). now rewrite (Rabs_pos_eq d). }
    apply Rabs_le. nra.
  - apply Rle_trans with (2 := H), sin_abs_le.
Qed.

End RadiusFacts.

(** ** Runs of the script *)

Module RunFacts.
Import Binary64 Checks.

Section Runs.
Variable np_sin : float -> float.
Variables world exn : Type.
Variable perform : plt.call -> world -> world * option exn.

(** A run makes the calls in the order of the source and stops at the first
    one that raises. *)
Lemma run_trace_prefix w :
  exists k, (k <= 5)%nat
    /\ plt.trace (fst (script.run np_sin perform w))
       = firstn k (script.calls np_sin)
    /\ (k = 5%nat \/ exists e, snd (script.run np_sin perform w) = inr e).
Proof.
  unfold script.run, script.main, script.calls, plt.bind, plt.invoke, plt.start.
  cbn [plt.the_world plt.trace].
  destruct (perform (plt.subplots "polar") w) as [w1 [e|]];
    cbn [fst snd plt.the_world plt.trace app].
  { exists 1%nat. split; [lia|]. split; [reflexivity|]. right. now exists e. }
  destruct (perform (plt.plot hw1.theta (hw1.r np_sin)) w1) as [w2 [e|]];
    cbn [fst snd plt.the_world plt.trace app].
  { exists 2%nat. split; [lia|]. split; [reflexivity|]. right. now exists e. }
  destruct (perform (plt.set_title "Line Plot on Polar Axis") w2) as [w3 [e|]];
    cbn [fst snd plt.the_world plt.trace app].
  { exists 3%nat. split; [lia|]. split; [reflexivity|]. right. now exists e. }
  destruct (perform (plt.savefig "hw1_plot.pdf" "pdf") w3) as [w4 [e|]];
    cbn [fst snd plt.the_world plt.trace app].
  { exists 4%nat. split; [lia|]. split; [reflexivity|]. right. now exists e. }
  destruct (perform plt.show w4) as [w5 [e|]];
    cbn [fst snd plt.the_world plt.trace app];
    exists 5%nat; (split; [lia|]); (split; [reflexivity|]); now left.
Qed.

(** The script is [draw] followed by the two last calls. *)
Lemma main_after_draw s :
  script.main np_sin perform s
  = plt.bind (script.draw np_sin perform)
      (fun _ => plt.bind (plt.invoke perform (plt.savefig "hw1_plot.pdf" "pdf"))
                  (fun _ => plt.invoke perform plt.show)) s.
Proof.
  unfold script.main, script.draw, plt.bind.
  destruct (plt.invoke perform (plt.subplots "polar") s) as [s1 [[]|e]];
    [|reflexivity].
  destruct (plt.invoke perform (plt.plot hw1.theta (hw1.r np_sin)) s1) as [s2 [[]|e]];
    [|reflexivity].
  destruct (plt.invoke perform (plt.set_title "Line Plot on Polar Axis") s2)
    as [s3 [[]|e]]; reflexivity.
Qed.

(** Where [show] can stand in a prefix of the calls. *)
Lemma show_in_prefix k pre post :
  firstn k (script.calls np_sin) = pre ++ plt.show :: post ->
  pre = firstn 4 (script.calls np_sin) /\ post = [].
Proof.
  unfold script.calls. intros H.
  assert (I : In plt.show (firstn k (script.calls np_sin)))
    by (unfold script.calls; rewrite H; apply in_elt).
  unfold script.calls in I.
  do 5 (destruct k as [|k];
        [cbn [firstn In] in I; exfalso; intuition discriminate|]).
  clear I. cbn [firstn] in H. rewrite firstn_nil in H.
  destruct pre as [|c1 pre]; [discriminate H|]. injection H as <- H.
  destruct pre as [|c2 pre]; [discriminate H|]. injection H as <- H.
  destruct pre as [|c3 pre]; [discriminate H|]. injection H as <- H.
  destruct pre as [|c4 pre]; [discriminate H|]. injection H as <- H.
  destruct pre as [|c5 pre].
  - injection H as <-. split; reflexivity.
  - injection H as _ H. destruct pre; discriminate H.
Qed.

(** The data of a [plot] call in a prefix of the calls. *)
Lemma plot_in_prefix k x y :
  In (plt.plot x y) (firstn k (script.calls np_sin)) ->
  x = hw1.theta /\ y = hw1.r np_sin.
Proof.
  intros H.
  assert (I : In (plt.plot x y) (script.calls np_sin))
    by (rewrite <- (firstn_skipn k); apply in_or_app; now left).
  clear H. unfold script.calls in I. revert I.
  generalize hw1.theta (hw1.r np_sin). intros xs ys I.
  cbn [In] in I.
  destruct I as [H|[H|[H|[H|[H|[]]]]]];
    [discriminate H| |discriminate H|discriminate H|discriminate H].
  injection H as <- <-. split; reflexivity.
Qed.

(** When the three drawing calls return, they are the whole trace. *)
Lemma draw_trace w s3 :
  script.draw np_sin perform (plt.start w) = (s3, inl tt) ->
  plt.trace s3 = firstn 3 (script.calls np_sin).
Proof.
  unfold script.draw, script.calls, plt.bind, plt.invoke, plt.start.
  cbn [plt.the_world plt.trace app firstn].
  destruct (perform (plt.subplots "polar") w) as [w1 [e|]]; [discriminate|].
  cbn [plt.the_world plt.trace app].
  destruct (perform (plt.plot hw1.theta (hw1.r np_sin)) w1) as [w2 [e|]];
    [discriminate|].
  cbn [plt.the_world plt.trace app].
  destruct (perform (plt.set_title "Line Plot on Polar Axis") w2) as [w3 [e|]];
    [discriminate|].
  intros H. injection H as <-. reflexivity.
Qed.

End Runs.

(** In the writable sample world the five calls are made, the file is
    written and the run ends normally. *)
Example run_writable :
  script.run Sample.sin Sample.writable []
  = (plt.mkState Sample.files ["hw1_plot.pdf"%string] (script.calls Sample.sin),
     inl tt).
Proof. reflexivity. Qed.

End RunFacts.

(** * The claims *)

Module Spec.
Import Binary64 Checks.
Local Open Scope R_scope.

(** C1: for every index i of [0, 99] the i-th radius is
    [1 + np.sin(4 * theta[i])], computed by the total function [hw1.radius];
    and where the library sine is accurate at [4 * theta[i]], the exact value
    of the radius is within 1e-15 (well inside the 1e-12 of the
    specification) of the real number 1 + sin(4 * theta[i]). *)
Theorem C1_radius_formula (np_sin : float -> float) :
  forall i, (i < 100)%nat ->
    nth i (hw1.r np_sin) zero
    = add (of_Z 1) (np_sin (mul (of_Z 4) (nth i hw1.theta zero)))
    /\ (sin_accurate_at np_sin (sin_arg i) ->
        is_finite (radius_at np_sin i) = true
        /\ Rabs (F2R (radius_at np_sin i) - (1 + sin (4 * F2R (angle i))))
           <= 1 / 10 ^ 15).
Proof.
  intros i Hi. split.
  - exact (RadiusFacts.radius_at_eq np_sin i Hi).
  - intros A.
    destruct (RadiusFacts.radius_accuracy np_sin i Hi A) as [F E].
    split; [exact F|].
    apply Rle_trans with (1 := E). exact RadiusFacts.half_ulps.
Qed.

Lemma C1_radius_formula_witness :
  nth 99 (hw1.r Sample.sin) zero
  = add (of_Z 1) (Sample.sin (mul (of_Z 4) (nth 99 hw1.theta zero)))
  /\ is_finite (radius_at Sample.sin 99) = true
  /\ Rabs (F2R (radius_at Sample.sin 99) - (1 + sin (4 * F2R (angle 99))))
     <= 1 / 10 ^ 15.
Proof.
  destruct (C1_radius_formula Sample.sin 99) as [E A]; [lia|].
  split; [exact E|]. apply A. exact RadiusFacts.sample_accurate_last.
Defined.

(** C2: consecutive angles are 2 pi / 99 apart, up to 1e-15 (the exact
    values of the floats are compared with the real number 2 pi / 99). *)
Theorem C2_even_spacing :
  forall i, (i < 99)%nat ->
    is_finite (angle i) = true
    /\ is_finite (angle (S i)) = true
    /\ Rabs (F2R (angle (S i)) - F2R (angle i) - 2 * PI / 99)
       <= 1 / 10 ^ 15.
Proof.
  intros i Hi.
  pose proof (ListFacts.forallb_seq _ _ ThetaFacts.spacing_ok_all i Hi) as H.
  unfold spacing_ok in H.
  apply andb_prop in H. destruct H as [H N].
  apply andb_prop in H. destruct H as [F1 F2].
  split; [assumption|]. split; [assumption|].
  apply ApproxFacts.near_pi_multiple_sound in N; [|discriminate].
  rewrite ThetaFacts.Q2R_tol, Q2R_minus in N. unfold F2R.
  replace (Q2R (2 # 99)) with (2 / 99) in N by (unfold Q2R; simpl; lra).
  replace (2 * PI / 99) with (2 / 99 * PI) by lra.
  exact N.
Qed.

Lemma C2_even_spacing_witness :
  is_finite (angle 41) = true
  /\ is_finite (angle 42) = true
  /\ (Rabs (F2R (angle 42) - F2R (angle 41) - 2 * PI / 99)
      <= 1 / 10 ^ 15).
Proof. apply (C2_even_spacing 41). lia. Defined.

(** C3: the first angle is 0 and the last one is 2 pi: the array starts with
    the float +0, ends with the float [2*np.pi], and the exact value of that
    float is within 1e-15 of the real number 2 pi. *)
Theorem C3_endpoints :
  angle 0 = S754_zero false
  /\ F2R (angle 0) = 0
  /\ angle 99 = mul (of_Z 2) np.pi
  /\ (Rabs (F2R (angle 99) - 2 * PI) <= 1 / 10 ^ 15).
Proof.
  split; [exact ThetaFacts.angle_first|]. split.
  - rewrite ThetaFacts.angle_first. unfold F2R, F2Q, Q2R. simpl. lra.
  - split; [exact ThetaFacts.angle_last | exact ThetaFacts.angle_last_close].
Qed.

(** C4: the angle sequence and the radius sequence have one hundred
    elements each, and the i-th radius is computed from the i-th angle. *)
Theorem C4_lengths_and_positions (np_sin : float -> float) :
  List.length hw1.theta = 100%nat
  /\ List.length (hw1.r np_sin) = 100%nat
  /\ forall i, nth_error (hw1.r np_sin) i
               = option_map (hw1.radius np_sin) (nth_error hw1.theta i).
Proof.
  split; [exact ThetaFacts.theta_length|]. split.
  - unfold hw1.r. rewrite length_map. exact ThetaFacts.theta_length.
  - intros i. unfold hw1.r. apply nth_error_map.
Qed.

(** C5: every radius lies in [0, 2], provided the library sine returns
    floats of [-1, 1] on the arguments of the script: the rounded sum
    [1 + s] is then a finite float between the floats 0 and 2, and its exact
    value is between the real numbers 0 and 2. *)
Theorem C5_radius_range (np_sin : float -> float) :
  sin_in_range np_sin = true ->
  forall i, (i < 100)%nat ->
    is_finite (radius_at np_sin i) = true
    /\ leb zero (radius_at np_sin i) = true
    /\ leb (radius_at np_sin i) two = true
    /\ 0 <= F2R (radius_at np_sin i) <= 2.
Proof.
  intros H i Hi.
  rewrite RadiusFacts.radius_at_eq by exact Hi.
  pose proof (RadiusFacts.sin_in_range_at np_sin i H Hi) as U.
  destruct (RoundFacts.add_one_spec _ U) as (F & L0 & L2 & B & _).
  repeat split; try assumption; apply B.
Qed.

Lemma C5_radius_range_witness :
  is_finite (radius_at Sample.sin 12) = true
  /\ leb zero (radius_at Sample.sin 12) = true
  /\ leb (radius_at Sample.sin 12) two = true
  /\ 0 <= F2R (radius_at Sample.sin 12) <= 2.
Proof.
  apply (C5_radius_range Sample.sin).
  - vm_compute. reflexivity.
  - lia.
Defined.

(** C6: in every run, whatever the outside world does, [plt.show] is only
    called after [plt.savefig("hw1_plot.pdf", format="pdf")] has been called,
    never before it, and nothing is called after it. *)
Theorem C6_save_before_show
    (np_sin : float -> float) (world exn : Type)
    (perform : plt.call -> world -> world * option exn) (w : world) :
  forall pre post,
    plt.trace (fst (script.run np_sin perform w)) = pre ++ plt.show :: post ->
    In (plt.savefig "hw1_plot.pdf" "pdf") pre
    /\ ~ In plt.show pre
    /\ post = [].
Proof.
  intros pre post H.
  destruct (RunFacts.run_trace_prefix np_sin _ _ perform w) as (k & _ & T & _).
  rewrite T in H.
  destruct (RunFacts.show_in_prefix np_sin k pre post H) as [-> ->].
  unfold script.calls. cbn [firstn In].
  split; [auto 6|]. split; [|reflexivity].
  intros [C|[C|[C|[C|[]]]]]; discriminate C.
Qed.

Lemma C6_save_before_show_witness :
  In (plt.savefig "hw1_plot.pdf" "pdf") (firstn 4 (script.calls Sample.sin))
  /\ ~ In plt.show (firstn 4 (script.calls Sample.sin))
  /\ @nil plt.call = [].
Proof.
  apply (C6_save_before_show Sample.sin _ _ Sample.writable []
           (firstn 4 (script.calls Sample.sin)) []).
  reflexivity.
Defined.

(** C7: when the run reaches the save step and [plt.savefig] raises (the
    working directory is not writable, the path is invalid), the exception is
    the result of the run, the exit status is 1, the save call is the last
    call made and [plt.show] is never called. *)
Theorem C7_save_failure_ends_run
    (np_sin : float -> float) (world exn : Type)
    (perform : plt.call -> world -> world * option exn) (w : world) :
  forall s3 w4 e,
    script.draw np_sin perform (plt.start w) = (s3, inl tt) ->
    perform (plt.savefig "hw1_plot.pdf" "pdf") (plt.the_world s3) = (w4, Some e) ->
    snd (script.run np_sin perform w) = inr e
    /\ plt.exit_status (snd (script.run np_sin perform w)) = 1%Z
    /\ plt.trace (fst (script.run np_sin perform w))
       = plt.trace s3 ++ [plt.savefig "hw1_plot.pdf" "pdf"]
    /\ ~ In plt.show (plt.trace (fst (script.run np_sin perform w))).
Proof.
  intros s3 w4 e D S.
  assert (R : script.run np_sin perform w
              = (plt.mkState world w4
                   (plt.trace s3 ++ [plt.savefig "hw1_plot.pdf" "pdf"]), inr e)).
  { unfold script.run. rewrite RunFacts.main_after_draw.
    unfold plt.bind at 1. rewrite D.
    unfold plt.bind, plt.invoke. rewrite S. reflexivity. }
  rewrite R. cbn [fst snd plt.trace plt.exit_status].
  split; [reflexivity|]. split; [reflexivity|]. split; [reflexivity|].
  rewrite (RunFacts.draw_trace np_sin _ _ perform w s3 D).
  unfold script.calls. cbn [firstn app In].
  intros [C|[C|[C|[C|[]]]]]; discriminate C.
Qed.

Lemma C7_save_failure_ends_run_witness :
  snd (script.run Sample.sin Sample.read_only []) = inr Sample.WriteError
  /\ plt.exit_status (snd (script.run Sample.sin Sample.read_only [])) = 1%Z
  /\ plt.trace (fst (script.run Sample.sin Sample.read_only []))
     = firstn 3 (script.calls Sample.sin) ++ [plt.savefig "hw1_plot.pdf" "pdf"]
  /\ ~ In plt.show (plt.trace (fst (script.run Sample.sin Sample.read_only []))).
Proof.
  pose proof (C7_save_failure_ends_run Sample.sin _ _ Sample.read_only []
           (plt.mkState Sample.files [] (firstn 3 (script.calls Sample.sin)))
           [] Sample.WriteError) as H.
  apply H; reflexivity.
Defined.

(** C8: the curve data are the same in any two runs: whatever the two
    outside worlds are and do, a [plot] call of one run and a [plot] call of
    the other carry the same angles and the same radii. *)
Theorem C8_curve_data_deterministic
    (np_sin : float -> float)
    (world1 exn1 : Type) (perform1 : plt.call -> world1 -> world1 * option exn1)
    (w1 : world1)
    (world2 exn2 : Type) (perform2 : plt.call -> world2 -> world2 * option exn2)
    (w2 : world2) :
  forall x1 y1 x2 y2,
    In (plt.plot x1 y1) (plt.trace (fst (script.run np_sin perform1 w1))) ->
    In (plt.plot x2 y2) (plt.trace (fst (script.run np_sin perform2 w2))) ->
    x1 = x2 /\ y1 = y2.
Proof.
  intros x1 y1 x2 y2 H1 H2.
  destruct (RunFacts.run_trace_prefix np_sin _ _ perform1 w1) as (k1 & _ & T1 & _).
  destruct (RunFacts.run_trace_prefix np_sin _ _ perform2 w2) as (k2 & _ & T2 & _).
  rewrite T1 in H1. rewrite T2 in H2.
  apply RunFacts.plot_in_prefix in H1, H2.
  destruct H1 as [-> ->], H2 as [-> ->]. split; reflexivity.
Qed.

Lemma C8_curve_data_deterministic_witness :
  hw1.theta = hw1.theta /\ hw1.r Sample.sin = hw1.r Sample.sin.
Proof.
  apply (C8_curve_data_deterministic Sample.sin
           _ _ Sample.writable [] _ _ Sample.read_only ["old.pdf"%string]);
    unfold script.run, script.main, plt.bind, plt.invoke, plt.start,
      Sample.writable, Sample.read_only;
    cbn [fst snd plt.trace plt.the_world app In]; right; left; reflexivity.
Defined.

(** C9: the curve is closed, provided the library sine is accurate at the
    first and at the last argument: the first and the last radius are both 1
    up to 2e-15, the first angle is 0 and the last one 2 pi up to 1e-15, and
    the two end points agree in Cartesian coordinates up to 1e-14. *)
Theorem C9_curve_closed (np_sin : float -> float) :
  sin_accurate_at np_sin (sin_arg 0) ->
  sin_accurate_at np_sin (sin_arg 99) ->
  let r0 := F2R (radius_at np_sin 0) in
  let r99 := F2R (radius_at np_sin 99) in
  let t0 := F2R (angle 0) in
  let t99 := F2R (angle 99) in
  is_finite (radius_at np_sin 0) = true
  /\ is_finite (radius_at np_sin 99) = true
  /\ Rabs (r0 - 1) <= 1 / 10 ^ 15
  /\ Rabs (r99 - 1) <= 2 / 10 ^ 15
  /\ t0 = 0 /\ Rabs (t99 - 2 * PI) <= 1 / 10 ^ 15
  /\ Rabs (r99 * cos t99 - r0 * cos t0) <= 1 / 10 ^ 14
  /\ Rabs (r99 * sin t99 - r0 * sin t0) <= 1 / 10 ^ 14.
Proof.
  intros A0 A99 r0 r99 t0 t99.
  destruct (RadiusFacts.radius_accuracy np_sin 0 ltac:(lia) A0) as [F0 E0].
  destruct (RadiusFacts.radius_accuracy np_sin 99 ltac:(lia) A99) as [F99 E99].
  fold r0 t0 in E0. fold r99 t99 in E99.
  assert (T0 : t0 = 0).
  { unfold t0. rewrite ThetaFacts.angle_first. apply RoundFacts.F2R_zero. }
  pose proof ThetaFacts.angle_last_close as T99. fold t99 in T99.
  pose proof RadiusFacts.half_ulps as HU.
  assert (R0 : Rabs (r0 - 1) <= 1 / 10 ^ 15).
  { rewrite T0, Rmult_0_r, sin_0 in E0.
    replace (r0 - 1) with (r0 - (1 + 0)) by ring. lra. }
  assert (S99 : Rabs (sin (4 * t99)) <= 985 / 10 ^ 18).
  { unfold t99. rewrite <- RadiusFacts.F2R_sin_arg by lia.
    pose proof RadiusFacts.sin_at_last as [L U].
    apply Rabs_le. lra. }
  assert (R99 : Rabs (r99 - 1) <= 2 / 10 ^ 15).
  { replace (r99 - 1) with ((r99 - (1 + sin (4 * t99))) + sin (4 * t99)) by ring.
    apply Rle_trans with (1 := Rabs_triang _ _). lra. }
  destruct (RadiusFacts.direction_near_2PI t99 (1 / 10 ^ 15) T99 ltac:(lra))
    as [C99 N99].
  split; [exact F0|]. split; [exact F99|]. split; [exact R0|]. split; [exact R99|].
  split; [exact T0|]. split; [exact T99|].
  rewrite T0, cos_0, sin_0.
  apply RadiusFacts.Rabs_le_elim in R0, R99, C99, N99.
  split; apply Rabs_le; nra.
Qed.

Lemma C9_curve_closed_witness :
  is_finite (radius_at Sample.sin 0) = true
  /\ is_finite (radius_at Sample.sin 99) = true
  /\ Rabs (F2R (radius_at Sample.sin 0) - 1) <= 1 / 10 ^ 15
  /\ Rabs (F2R (radius_at Sample.sin 99) - 1) <= 2 / 10 ^ 15
  /\ F2R (angle 0) = 0 /\ Rabs (F2R (angle 99) - 2 * PI) <= 1 / 10 ^ 15
  /\ Rabs (F2R (radius_at Sample.sin 99) * cos (F2R (angle 99))
           - F2R (radius_at Sample.sin 0) * cos (F2R (angle 0))) <= 1 / 10 ^ 14
  /\ Rabs (F2R (radius_at Sample.sin 99) * sin (F2R (angle 99))
           - F2R (radius_at Sample.sin 0) * sin (F2R (angle 0))) <= 1 / 10 ^ 14.
Proof.
  apply (C9_curve_closed Sample.sin).
  - exact RadiusFacts.sample_accurate_first.
  - exact RadiusFacts.sample_accurate_last.
Defined.

(** C10: the angles increase strictly, in the order of the floats and as
    exact values. *)
Theorem C10_strictly_increasing :
  forall i, (i < 99)%nat ->
    ltb (angle i) (angle (S i)) = true
    /\ (F2R (angle i) < F2R (angle (S i))).
Proof.
  intros i Hi.
  pose proof (ListFacts.forallb_seq _ _ ThetaFacts.increasing_all i Hi) as H.
  unfold increasing_at in H.
  apply andb_prop in H. destruct H as [H N].
  apply andb_prop in H. destruct H as [H _].
  apply andb_prop in H. destruct H as [L _].
  split; [assumption|].
  unfold F2R. apply Qlt_Rlt, Qnot_le_lt. intros C.
  apply Qle_bool_iff in C. rewrite C in N. discriminate N.
Qed.

Lemma C10_strictly_increasing_witness :
  ltb (angle 98) (angle 99) = true
  /\ (F2R (angle 98) < F2R (angle 99)).
Proof. apply (C10_strictly_increasing 98). lia. Defined.

End Spec.

(** * More of the script

    Properties of the code beyond the claims: [np.linspace] for any bounds
    and length, the radius of any angle, and the runs of the script in any
    outside world. *)

(** ** The shape of [linspace] *)

Module LinspaceFacts.
Import Binary64 Checks.

Lemma arange_length num : List.length (np.arange num) = num.
Proof. unfold np.arange. now rewrite length_map, length_seq. Qed.

Lemma removelast_length (y : list float) :
  List.length (removelast y) = (List.length y - 1)%nat.
Proof.
  rewrite removelast_firstn_len, length_firstn. lia.
Qed.

Lemma set_last_length y v : List.length (np.set_last y v) = List.length y.
Proof.
  destruct y as [|a y]; [reflexivity|].
  unfold np.set_last. rewrite length_app, removelast_length. simpl. lia.
Qed.

Lemma set_last_nth y v d :
  y <> [] -> nth (List.length y - 1) (np.set_last y v) d = v.
Proof.
  intros H. destruct y as [|a y]; [congruence|].
  unfold np.set_last.
  rewrite app_nth2; rewrite removelast_length; [|lia].
  now rewrite Nat.sub_diag.
Qed.

(** The samples before the end point is written. *)
Lemma linspace_unfold start stop num :
  exists y, List.length y = num
    /\ np.linspace start stop num
       = if (1 <? num)%nat then np.set_last y stop else y.
Proof.
  unfold np.linspace.
  match goal with
  | |- exists y, _ /\ (if _ then np.set_last ?a _ else _) = _ => exists a
  end.
  split; [|reflexivity].
  rewrite length_map.
  destruct (0 <? Z.of_nat num - 1)%Z.
  - destruct (eqb _ _); now rewrite length_map, arange_length.
  - now rewrite length_map, arange_length.
Qed.

Lemma set_last_head a b y v d :
  nth 0 (np.set_last (a :: b :: y) v) d = a.
Proof. reflexivity. Qed.

Lemma add_zero_l b y :
  match y with
  | S754_finite _ _ _ | S754_zero false => True
  | _ => False
  end ->
  add (S754_zero b) y = y.
Proof. destruct y as [[|]| | |]; destruct b; intros []; reflexivity. Qed.

End LinspaceFacts.

(** ** The product with 4 *)

Module MulFacts.
Import Binary64 Checks.
Local Open Scope Z_scope.

Lemma shr_1_double X :
  0 <= X ->
  shr_1 {| shr_m := 2 * X; shr_r := false; shr_s := false |}
  = {| shr_m := X; shr_r := false; shr_s := false |}.
Proof. intros H. destruct X as [|p|p]; try lia; reflexivity. Qed.

Lemma iter_shr_1_exact n : forall X, 0 <= X ->
  iter_pos shr_1 n {| shr_m := 2 ^ Zpos n * X; shr_r := false; shr_s := false |}
  = {| shr_m := X; shr_r := false; shr_s := false |}.
Proof.
  induction n as [n IH|n IH|]; intros X H.
  - cbn [iter_pos].
    replace (2 ^ Zpos n~1 * X) with (2 * (2 ^ Zpos n * (2 ^ Zpos n * X))).
    + assert (0 < 2 ^ Zpos n) by (apply Z.pow_pos_nonneg; lia).
      rewrite shr_1_double by nia.
      rewrite IH by nia. apply IH. exact H.
    + change 2 with (2 ^ 1) at 1.
      rewrite !Z.mul_assoc, <- !Z.pow_add_r by lia. do 2 f_equal. lia.
  - cbn [iter_pos].
    replace (2 ^ Zpos n~0 * X) with (2 ^ Zpos n * (2 ^ Zpos n * X)).
    + assert (0 < 2 ^ Zpos n) by (apply Z.pow_pos_nonneg; lia).
      rewrite IH by nia. apply IH. exact H.
    + rewrite !Z.mul_assoc, <- !Z.pow_add_r by lia. do 2 f_equal. lia.
  - cbn [iter_pos]. change (2 ^ 1) with 2. apply shr_1_double. exact H.
Qed.

(** Rounding a mantissa whose discarded bits are all zero. *)
Lemma binary_round_aux_exact sx M X E n :
  0 <= n ->
  Zpos M = 2 ^ n * Zpos X ->
  fx (Zpos (digits2_pos M) + E) - E = n ->
  fx (Zpos (digits2_pos X) + (E + n)) = E + n ->
  binary_round_aux 53 1024 sx (Zpos M) E loc_Exact
  = if E + n <=? 971 then S754_finite sx X (E + n) else S754_infinity sx.
Proof.
  intros Hn HM H1 H2.
  unfold binary_round_aux.
  unfold shr_fexp at 1. cbn [Zdigits2 shr_record_of_loc].
  change (fexp 53 1024) with fx. rewrite H1.
  destruct n as [|k|k]; try lia.
  - rewrite RoundFacts.shr_zero.
    cbn [shr_m loc_of_shr_record round_nearest_even].
    assert (M = X) by (simpl in HM; lia). subst M.
    unfold shr_fexp. cbn [Zdigits2 shr_record_of_loc].
    change (fexp 53 1024) with fx. rewrite Z.add_0_r in H2.
    rewrite H2, Z.sub_diag, RoundFacts.shr_zero. cbn [shr_m].
    rewrite Z.add_0_r. reflexivity.
  - rewrite RoundFacts.shr_pos, HM, iter_shr_1_exact by lia.
    cbn [shr_m loc_of_shr_record round_nearest_even].
    unfold shr_fexp. cbn [Zdigits2 shr_record_of_loc].
    change (fexp 53 1024) with fx.
    rewrite H2, Z.sub_diag, RoundFacts.shr_zero. cbn [shr_m].
    reflexivity.
Qed.

Lemma four_eq : of_Z 4 = S754_finite false 4503599627370496 (-50).
Proof. reflexivity. Qed.

Lemma digits2_shift p j :
  0 <= j -> Zpos (digits2_pos p) + j
            = Zpos (digits2_pos (Z.to_pos (Zpos p * 2 ^ j))).
Proof.
  intros H. pose proof (RoundFacts.digits2_bounds p) as [L U].
  assert (P : 0 < 2 ^ j) by (apply Z.pow_pos_nonneg; lia).
  symmetry. apply RoundFacts.digits2_unique.
  rewrite Z2Pos.id by nia.
  replace (Zpos (digits2_pos p) + j - 1) with (Zpos (digits2_pos p) - 1 + j) by lia.
  rewrite !Z.pow_add_r by lia. nia.
Qed.

(** The product of 4 and a well-formed finite float: the same mantissa two
    binades up, or, for a subnormal, a longer mantissa. *)
Lemma mul_four_finite s m e :
  bounded 53 1024 m e = true ->
  let j := Z.min 2 (53 - Zpos (digits2_pos m)) in
  mul (of_Z 4) (S754_finite s m e)
  = if e + 2 - j <=? 971
    then S754_finite s (Z.to_pos (Zpos m * 2 ^ j)) (e + 2 - j)
    else S754_infinity s.
Proof.
  intros B j. rewrite four_eq. unfold mul, SFmul, prec, emax. cbn [xorb].
  unfold bounded, canonical_mantissa in B.
  apply andb_prop in B. destruct B as [C _]. apply Z.eqb_eq in C.
  change (fexp 53 1024) with fx in C. rewrite RoundFacts.fx_eq in C.
  pose proof (RoundFacts.digits2_bounds m) as [L U].
  set (d := Zpos (digits2_pos m)) in *.
  assert (D : 1 <= d) by (unfold d; lia).
  assert (J : 0 <= j <= 2) by (unfold j; lia).
  assert (P : 0 < 2 ^ j) by (apply Z.pow_pos_nonneg; lia).
  set (X := Z.to_pos (Zpos m * 2 ^ j)).
  assert (HX : Zpos X = Zpos m * 2 ^ j) by (unfold X; rewrite Z2Pos.id; nia).
  assert (DX : Zpos (digits2_pos X) = d + j)
    by (unfold X, d; symmetry; apply digits2_shift; lia).
  assert (HM : Zpos (4503599627370496 * m) = 2 ^ (52 - j) * Zpos X).
  { rewrite HX, Pos2Z.inj_mul. change (Zpos 4503599627370496) with (2 ^ 52).
    replace 52 with (52 - j + j) at 1 by lia.
    rewrite Z.pow_add_r by lia. ring. }
  assert (DM : Zpos (digits2_pos (4503599627370496 * m)) = d + 52).
  { apply RoundFacts.digits2_unique. rewrite Pos2Z.inj_mul.
    change (Zpos 4503599627370496) with (2 ^ 52).
    replace (d + 52 - 1) with (52 + (d - 1)) by lia.
    replace (d + 52) with (52 + d) by lia.
    rewrite !Z.pow_add_r by lia. nia. }
  replace (e + 2 - j) with (-50 + e + (52 - j)) by lia.
  apply (binary_round_aux_exact s _ X (-50 + e) (52 - j)).
  - lia.
  - exact HM.
  - rewrite DM, RoundFacts.fx_eq. unfold j in *. lia.
  - rewrite DX, RoundFacts.fx_eq. unfold j in *. lia.
Qed.

Local Open Scope R_scope.

Lemma IZR_pow2 p : IZR (2 ^ Zpos p) = 2 ^ Pos.to_nat p.
Proof. now rewrite pow_IZR, positive_nat_Z. Qed.

(** The exact value of a finite float is mantissa times 2^exponent. *)
Lemma F2R_finite s m e :
  F2R (S754_finite s m e) = IZR (cond_Zopp s (Zpos m)) * powerRZ 2 e.
Proof.
  unfold F2R, F2Q. destruct e as [|p|p].
  - rewrite ApproxFacts.Q2R_inject_Z. simpl powerRZ.
    rewrite Z.pow_0_r, Z.mul_1_r. ring.
  - rewrite ApproxFacts.Q2R_inject_Z, mult_IZR, IZR_pow2. reflexivity.
  - unfold Q2R. cbn [Qnum Qden]. rewrite Pos2Z.inj_pow, IZR_pow2. reflexivity.
Qed.

Lemma bounded_digits m e :
  bounded 53 1024 m e = true -> (1 <= Zpos (digits2_pos m) <= 53)%Z.
Proof.
  unfold bounded, canonical_mantissa. intros B.
  apply andb_prop in B. destruct B as [C _]. apply Z.eqb_eq in C.
  change (fexp 53 1024) with fx in C. rewrite RoundFacts.fx_eq in C. lia.
Qed.

Lemma mul_four_exact t :
  valid t = true -> is_finite (mul (of_Z 4) t) = true ->
  F2R (mul (of_Z 4) t) = 4 * F2R t.
Proof.
  intros V F. destruct t as [b|b| |s m e].
  - change (mul (of_Z 4) (S754_zero b)) with (S754_zero b).
    rewrite RoundFacts.F2R_zero. ring.
  - discriminate F.
  - discriminate F.
  - change (bounded 53 1024 m e = true) in V.
    rewrite (mul_four_finite s m e V) in *.
    set (j := Z.min 2 (53 - Zpos (digits2_pos m))) in *.
    destruct (e + 2 - j <=? 971)%Z; [|discriminate F].
    rewrite !F2R_finite.
    pose proof (bounded_digits m e V) as D.
    assert (J : (j = 0 \/ j = 1 \/ j = 2)%Z) by (unfold j; lia).
    clearbody j.
    assert (N : (2 : R) <> 0) by lra.
    replace (e + 2 - j)%Z with (e + (2 - j))%Z by lia.
    rewrite powerRZ_add by exact N.
    assert (X : IZR (cond_Zopp s (Zpos (Z.to_pos (Zpos m * 2 ^ j))))
                = IZR (cond_Zopp s (Zpos m)) * IZR (2 ^ j)).
    { assert (0 < 2 ^ j)%Z by (apply Z.pow_pos_nonneg; lia).
      rewrite Z2Pos.id by nia.
      rewrite <- mult_IZR. f_equal. destruct s; cbn [cond_Zopp]; ring. }
    rewrite X.
    destruct J as [->|[->| ->]]; simpl; lra.
Qed.

End MulFacts.

(** ** The outcomes of a run *)

Module OutcomeFacts.
Import Binary64 Checks.

Section Runs.
Variable np_sin : float -> float.
Variables world exn : Type.
Variable perform : plt.call -> world -> world * option exn.


(** When a drawing call raises, the trace holds drawing calls only. *)
Lemma draw_failure_trace w s e :
  script.draw np_sin perform (plt.start w) = (s, inr e) ->
  exists k, (1 <= k <= 3)%nat /\ plt.trace s = firstn k (script.calls np_sin).
Proof.
  unfold script.draw, script.calls, plt.bind, plt.invoke, plt.start.
  cbn [plt.the_world plt.trace app firstn].
  destruct (perform (plt.subplots "polar") w) as [w1 [e1|]].
  { intros H. injection H as <- _. exists 1%nat. split; [lia|reflexivity]. }
  cbn [plt.the_world plt.trace app].
  destruct (perform (plt.plot hw1.theta (hw1.r np_sin)) w1) as [w2 [e2|]].
  { intros H. injection H as <- _. exists 2%nat. split; [lia|reflexivity]. }
  cbn [plt.the_world plt.trace app].
  destruct (perform (plt.set_title "Line Plot on Polar Axis") w2) as [w3 [e3|]].
  { intros H. injection H as <- _. exists 3%nat. split; [lia|reflexivity]. }
  discriminate.
Qed.

(** The calls of the script are pairwise different. *)
Lemma calls_NoDup : NoDup (script.calls np_sin).
Proof.
  unfold script.calls. generalize hw1.theta (hw1.r np_sin). intros xs ys.
  repeat (apply NoDup_cons; [cbn [In]; intuition discriminate|]).
  apply NoDup_nil.
Qed.

Lemma firstn_NoDup (A : Type) k (l : list A) : NoDup l -> NoDup (firstn k l).
Proof.
  intros H. rewrite <- (firstn_skipn k l) in H.
  now apply NoDup_app_remove_r in H.
Qed.

Lemma in_firstn (A : Type) k (l : list A) x : In x (firstn k l) -> In x l.
Proof.
  intros H. rewrite <- (firstn_skipn k l). apply in_or_app. now left.
Qed.

End Runs.
End OutcomeFacts.

(** ** The properties *)

Module Extra.
Import Binary64 Checks.
Local Open Scope R_scope.

(** X1: [np.linspace] returns exactly [num] samples, for any bounds and any
    [num], zero included. *)
Theorem X1_linspace_length (start stop : float) (num : nat) :
  List.length (np.linspace start stop num) = num.
Proof.
  destruct (LinspaceFacts.linspace_unfold start stop num) as (y & L & ->).
  destruct (1 <? num)%nat; [rewrite LinspaceFacts.set_last_length|]; exact L.
Qed.

(** X2: with at least two samples, the last sample of [np.linspace] is the
    float [stop] itself, not a rounded [start + (num-1)*step]. *)
Theorem X2_linspace_endpoint (start stop d : float) (num : nat) :
  (2 <= num)%nat ->
  nth (num - 1) (np.linspace start stop num) d = stop.
Proof.
  intros H.
  destruct (LinspaceFacts.linspace_unfold start stop num) as (y & L & ->).
  replace (1 <? num)%nat with true by (symmetry; apply Nat.ltb_lt; lia).
  rewrite <- L. apply LinspaceFacts.set_last_nth.
  intros ->. simpl in L. lia.
Qed.

Lemma X2_linspace_endpoint_witness :
  nth (7 - 1) (np.linspace (of_Z 1) (of_Z 3) 7) zero = of_Z 3.
Proof. apply (X2_linspace_endpoint (of_Z 1) (of_Z 3) zero 7). lia. Defined.

(** X3: with at least two samples and a finite nonzero step, the first
    sample of [np.linspace] is the float [start] itself, for every finite
    [start] other than -0. *)
Theorem X3_linspace_first (start stop d : float) (num : nat) :
  (2 <= num)%nat ->
  is_finite (linspace_step start stop num) = true ->
  eqb (linspace_step start stop num) (of_Z 0) = false ->
  is_finite start = true ->
  start <> S754_zero true ->
  nth 0 (np.linspace start stop num) d = start.
Proof.
  intros N F Z Fs Nz. unfold np.linspace.
  fold (linspace_step start stop num).
  replace (0 <? Z.of_nat num - 1)%Z with true by (symmetry; apply Z.ltb_lt; lia).
  rewrite Z.
  replace (1 <? num)%nat with true by (symmetry; apply Nat.ltb_lt; lia).
  destruct num as [|[|n]]; try lia.
  unfold np.arange. cbn [seq map]. rewrite LinspaceFacts.set_last_head.
  change (of_Z (Z.of_nat 0)) with (S754_zero false).
  destruct (linspace_step start stop (S (S n))) as [b|b| |s m e];
    try discriminate F.
  - discriminate Z.
  - change (mul (S754_zero false) (S754_finite s m e)) with (S754_zero s).
    apply LinspaceFacts.add_zero_l.
    destruct start as [[|]| | |]; try discriminate Fs; try exact I.
    now elim Nz.
Qed.

Lemma X3_linspace_first_witness :
  nth 0 (np.linspace (of_Z 1) (of_Z 3) 7) zero = of_Z 1.
Proof.
  apply (X3_linspace_first (of_Z 1) (of_Z 3) zero 7);
    [lia| reflexivity | reflexivity | reflexivity | discriminate].
Defined.

(** X4: [4*t] is computed without rounding: for every well-formed float [t]
    whose product with 4 is finite, [t] is finite and the exact value of the
    float [4*t] is four times the exact value of [t] (subnormals included). *)
Theorem X4_times_four_exact (t : float) :
  valid t = true -> is_finite (mul (of_Z 4) t) = true ->
  is_finite t = true /\ F2R (mul (of_Z 4) t) = 4 * F2R t.
Proof.
  intros V F. split.
  - destruct t as [b|b| |s m e]; try reflexivity; discriminate F.
  - exact (MulFacts.mul_four_exact t V F).
Qed.

Lemma X4_times_four_exact_witness :
  is_finite np.pi = true /\ F2R (mul (of_Z 4) np.pi) = 4 * F2R np.pi.
Proof. apply (X4_times_four_exact np.pi); reflexivity. Defined.

Section AnyAngle.
Variable np_sin : float -> float.

(** X5: for any angle [t], not only the hundred of the script: when the
    library sine returns a float of [-1, 1] at [4*t], the radius
    [1 + np.sin(4*t)] is a finite float between 0 and 2, and the addition
    loses at most 2^-52. *)
Theorem X5_radius_of_any_angle (t : float) :
  in_unit (np_sin (mul (of_Z 4) t)) = true ->
  is_finite (hw1.radius np_sin t) = true
  /\ leb zero (hw1.radius np_sin t) = true
  /\ leb (hw1.radius np_sin t) two = true
  /\ 0 <= F2R (hw1.radius np_sin t) <= 2
  /\ Rabs (F2R (hw1.radius np_sin t) - (1 + F2R (np_sin (mul (of_Z 4) t))))
     <= / 2 ^ 52.
Proof.
  intros U. exact (RoundFacts.add_one_spec _ U).
Qed.

(** X6: for any well-formed angle [t] whose product with 4 does not
    overflow: where the library sine is accurate at [4*t], the exact value of
    the radius is within 1e-15 of the real number 1 + sin(4 t). *)
Theorem X6_radius_accuracy_any_angle (t : float) :
  valid t = true -> is_finite (mul (of_Z 4) t) = true ->
  sin_accurate_at np_sin (mul (of_Z 4) t) ->
  is_finite (hw1.radius np_sin t) = true
  /\ Rabs (F2R (hw1.radius np_sin t) - (1 + sin (4 * F2R t))) <= 1 / 10 ^ 15.
Proof.
  intros V F [U A].
  destruct (RoundFacts.add_one_spec _ U) as (Fz & _ & _ & _ & E).
  split; [exact Fz|].
  rewrite <- (MulFacts.mul_four_exact t V F).
  change (add one (np_sin (mul (of_Z 4) t))) with (hw1.radius np_sin t) in E.
  set (z := F2R (hw1.radius np_sin t)) in *.
  set (s := F2R (np_sin (mul (of_Z 4) t))) in *.
  set (x := F2R (mul (of_Z 4) t)) in *.
  replace (z - (1 + sin x)) with ((z - (1 + s)) + (s - sin x)) by ring.
  apply Rle_trans with (1 := Rabs_triang _ _).
  pose proof RadiusFacts.half_ulps. lra.
Qed.

End AnyAngle.

Lemma X5_radius_of_any_angle_witness :
  is_finite (hw1.radius Sample.sin (angle 12)) = true
  /\ leb zero (hw1.radius Sample.sin (angle 12)) = true
  /\ leb (hw1.radius Sample.sin (angle 12)) two = true
  /\ 0 <= F2R (hw1.radius Sample.sin (angle 12)) <= 2
  /\ Rabs (F2R (hw1.radius Sample.sin (angle 12))
           - (1 + F2R (Sample.sin (mul (of_Z 4) (angle 12))))) <= / 2 ^ 52.
Proof.
  apply (X5_radius_of_any_angle Sample.sin (angle 12)). vm_compute. reflexivity.
Defined.

Lemma X6_radius_accuracy_any_angle_witness :
  is_finite (hw1.radius Sample.sin (angle 99)) = true
  /\ Rabs (F2R (hw1.radius Sample.sin (angle 99)) - (1 + sin (4 * F2R (angle 99))))
     <= 1 / 10 ^ 15.
Proof.
  apply (X6_radius_accuracy_any_angle Sample.sin (angle 99)).
  - vm_compute. reflexivity.
  - vm_compute. reflexivity.
  - exact RadiusFacts.sample_accurate_last.
Defined.

Section Runs.
Variable np_sin : float -> float.
Variables world exn : Type.
Variable perform : plt.call -> world -> world * option exn.
Variable w : world.


(** X8: when one of the drawing calls (lines 7 to 10) raises, the run ends
    there with that exception: no file is saved and nothing is shown. *)
Theorem X8_draw_failure_saves_nothing :
  forall s e,
    script.draw np_sin perform (plt.start w) = (s, inr e) ->
    script.run np_sin perform w = (s, inr e)
    /\ (forall fname format, ~ In (plt.savefig fname format) (plt.trace s))
    /\ ~ In plt.show (plt.trace s).
Proof.
  intros s e D.
  destruct (OutcomeFacts.draw_failure_trace np_sin _ _ perform w s e D) as (k & K & T).
  split.
  - unfold script.run. rewrite RunFacts.main_after_draw.
    unfold plt.bind at 1. now rewrite D.
  - rewrite T. unfold script.calls.
    generalize hw1.theta (hw1.r np_sin). intros xs ys.
    destruct k as [|[|[|[|k]]]]; try lia; cbn [firstn In];
      (split; [intros fname format|]); intuition discriminate.
Qed.


(** X10: whatever happens, the only file the script ever asks to save is
    [hw1_plot.pdf], in the format [pdf]. *)
Theorem X10_only_file_written :
  forall fname format,
    In (plt.savefig fname format) (plt.trace (fst (script.run np_sin perform w))) ->
    fname = "hw1_plot.pdf"%string /\ format = "pdf"%string.
Proof.
  intros fname format H.
  destruct (RunFacts.run_trace_prefix np_sin _ _ perform w) as (k & _ & T & _).
  rewrite T in H. apply OutcomeFacts.in_firstn in H.
  unfold script.calls in H. revert H.
  generalize hw1.theta (hw1.r np_sin). intros xs ys H. cbn [In] in H.
  destruct H as [H|[H|[H|[H|[H|[]]]]]];
    [discriminate H|discriminate H|discriminate H| |discriminate H].
  injection H as <- <-. split; reflexivity.
Qed.

(** X11: [ax.plot] is only ever called with two arrays of one hundred
    elements each, so the lengths of x and y always agree. *)
Theorem X11_plot_arrays_match :
  forall x y,
    In (plt.plot x y) (plt.trace (fst (script.run np_sin perform w))) ->
    List.length x = 100%nat /\ List.length y = List.length x.
Proof.
  intros x y H.
  destruct (RunFacts.run_trace_prefix np_sin _ _ perform w) as (k & _ & T & _).
  rewrite T in H. apply RunFacts.plot_in_prefix in H. destruct H as [-> ->].
  unfold hw1.r. rewrite length_map. split; [exact ThetaFacts.theta_length|reflexivity].
Qed.

(** X12: whenever the figure is saved, exactly the polar axes, the curve
    and the title have been requested before, in that order. *)
Theorem X12_figure_complete_when_saved :
  forall pre post fname format,
    plt.trace (fst (script.run np_sin perform w))
    = pre ++ plt.savefig fname format :: post ->
    pre = [plt.subplots "polar"; plt.plot hw1.theta (hw1.r np_sin);
           plt.set_title "Line Plot on Polar Axis"].
Proof.
  intros pre post fname format H.
  destruct (RunFacts.run_trace_prefix np_sin _ _ perform w) as (k & _ & T & _).
  rewrite T in H. clear T. unfold script.calls in H. revert H.
  generalize hw1.theta (hw1.r np_sin). intros xs ys H.
  destruct k as [|[|[|[|[|k]]]]]; cbn [firstn] in H;
    try rewrite firstn_nil in H;
    repeat (destruct pre as [|? pre];
            [try discriminate H; try (injection H as _ _ _; reflexivity)
            |try discriminate H; injection H as <- H]);
    try discriminate H; try reflexivity.
Qed.

(** X13: no call is made twice in a run: the figure is drawn once, saved at
    most once and shown at most once. *)
Theorem X13_no_call_twice :
  NoDup (plt.trace (fst (script.run np_sin perform w))).
Proof.
  destruct (RunFacts.run_trace_prefix np_sin _ _ perform w) as (k & _ & T & _).
  rewrite T. apply OutcomeFacts.firstn_NoDup, OutcomeFacts.calls_NoDup.
Qed.

End Runs.

Lemma X8_draw_failure_saves_nothing_witness :
  script.run Sample.sin Sample.cannot_plot []
  = (plt.mkState Sample.files [] (firstn 2 (script.calls Sample.sin)),
     inr Sample.RenderError)
  /\ (forall fname format,
        ~ In (plt.savefig fname format)
             (plt.trace (plt.mkState Sample.files []
                           (firstn 2 (script.calls Sample.sin)))))
  /\ ~ In plt.show
         (plt.trace (plt.mkState Sample.files []
                       (firstn 2 (script.calls Sample.sin)))).
Proof.
  apply (X8_draw_failure_saves_nothing Sample.sin _ _ Sample.cannot_plot []).
  reflexivity.
Defined.


Lemma X10_only_file_written_witness :
  "hw1_plot.pdf"%string = "hw1_plot.pdf"%string /\ "pdf"%string = "pdf"%string.
Proof.
  apply (X10_only_file_written Sample.sin _ _ Sample.writable []).
  unfold script.run, script.main, plt.bind, plt.invoke, plt.start,
    Sample.writable;
    cbn [fst snd plt.trace plt.the_world app In]; auto 6.
Defined.

Lemma X11_plot_arrays_match_witness :
  List.length hw1.theta = 100%nat
  /\ List.length (hw1.r Sample.sin) = List.length hw1.theta.
Proof.
  apply (X11_plot_arrays_match Sample.sin _ _ Sample.headless []).
  unfold script.run, script.main, plt.bind, plt.invoke, plt.start,
    Sample.headless;
    cbn [fst snd plt.trace plt.the_world app In]; auto.
Defined.

Lemma X12_figure_complete_when_saved_witness :
  firstn 3 (script.calls Sample.sin)
  = [plt.subplots "polar"; plt.plot hw1.theta (hw1.r Sample.sin);
     plt.set_title "Line Plot on Polar Axis"].
Proof.
  apply (X12_figure_complete_when_saved Sample.sin _ _ Sample.writable []
           (firstn 3 (script.calls Sample.sin)) [plt.show]
           "hw1_plot.pdf"%string "pdf"%string).
  reflexivity.
Defined.

End Extra.
